(** * CornHole scoring engine (score.py): a shallow embedding and its properties

    The Python classes [Tag], [Sensor] and [Game] are rendered as records,
    the enumerations as inductive types inside modules of the same name, and
    the methods of [Game] as functions of module [Game].

    Numbers.  Scores, points and the turn counter are Python integers
    (unbounded): [Z].  Sensor weights, the verification threshold, polling
    intervals and clock readings are Python numbers compared with [>=], [>]
    and added with [+]; they are modelled as exact rationals [Q].

    Dictionaries and sets.  [Tag.__hash__] and [Tag.__eq__] look at the rfid
    only, so a dict keyed by tags is a [gmap string _] keyed by rfid and a
    set of tags is a [gset string] of rfids.

    Outside world.  [time.time()], the button callback and the sensors'
    read callbacks are answered by a [World]: three streams of future
    answers, each consumed one answer per call.

    The score list of the manual score board [CornHoleApp] is a [list Z];
    its methods answer [None] where Python raises [IndexError]. *)

From Stdlib Require Import ZArith QArith Lqa.
From stdpp Require Import base gmap sets list strings pretty.

Local Open Scope Z_scope.

(** ** Enumerations *)

Module Team.
Inductive t : Set := UNKNOWN | A | B.
#[global] Instance eq_dec : EqDecision t.
Proof. solve_decision. Defined.
End Team.

Module GameEvent.
Inductive t : Set :=
  | TAGS_CHANGED_ON_BOARD_1
  | TAGS_CHANGED_ON_BOARD_2
  | NO_CHANGE
  | BUTTON_PRESSED
  | TIMEOUT
  | QUIT.
#[global] Instance eq_dec : EqDecision t.
Proof. solve_decision. Defined.
End GameEvent.

Module GameState.
Inductive t : Set :=
  | START
  | PLAYING_BOARD_1
  | PLAYING_BOARD_2
  | TURN_OVER
  | BOARD_CLEAR
  | GAME_OVER.
#[global] Instance eq_dec : EqDecision t.
Proof. solve_decision. Defined.
End GameState.

Module Location.
Inductive t : Set := UNKNOWN | BOARD_1 | HOLE_1 | BOARD_2 | HOLE_2.
#[global] Instance eq_dec : EqDecision t.
Proof. solve_decision. Defined.
End Location.

(** ** Tag and Sensor *)

Module Tag.
Record t : Set := Build { rfid : string; team : Team.t }.
End Tag.

Module Sensor.
Record t : Set := Build {
  id : string;
  weight : Q;
  location : Location.t;
  latest_reading : list string;
  points_to_award : Z
}.

(** [was_tag_read]: [self.latest_reading.count(tag.rfid) > 0]. *)
Definition was_tag_read (self : t) (tag : Tag.t) : bool :=
  bool_decide (0 < length (filter (λ r, r = Tag.rfid tag) (latest_reading self)))%nat.

Definition set_latest_reading (self : t) (reading : list string) : t :=
  {| id := id self; weight := weight self; location := location self;
     latest_reading := reading; points_to_award := points_to_award self |}.
End Sensor.

(** ** The outside world *)

Record World : Type := {
  (** successive answers of [time.time()], next one first *)
  clock : nat → Q;
  (** successive answers of the button callback: board 1, board 2, quit *)
  button_states : nat → bool * bool * bool;
  (** successive answers of the sensors' read callbacks, each given the id
      of the sensor being read *)
  tag_reads : nat → string → list string;
  (** what the display callback has been called with, latest first *)
  displayed : list (string * (Z * Z * Z * Z * Z * Z))
}.

Definition time_time (w : World) : Q * World :=
  (clock w 0%nat,
   {| clock := λ n, clock w (S n); button_states := button_states w;
      tag_reads := tag_reads w; displayed := displayed w |}).

Definition call_button_state (w : World) : (bool * bool * bool) * World :=
  (button_states w 0%nat,
   {| clock := clock w; button_states := λ n, button_states w (S n);
      tag_reads := tag_reads w; displayed := displayed w |}).

Definition call_read_tags (sensor_id : string) (w : World) : list string * World :=
  (tag_reads w 0%nat sensor_id,
   {| clock := clock w; button_states := button_states w;
      tag_reads := λ n, tag_reads w (S n); displayed := displayed w |}).

Definition call_display (message : string) (scores : Z * Z * Z * Z * Z * Z)
    (w : World) : World :=
  {| clock := clock w; button_states := button_states w;
     tag_reads := tag_reads w; displayed := (message, scores) :: displayed w |}.

(** [Sensor.read]: replace the cached reading by the callback's answer. *)
Definition Sensor_read (self : Sensor.t) (w : World) : Sensor.t * World :=
  let '(reading, w) := call_read_tags (Sensor.id self) w in
  (Sensor.set_latest_reading self reading, w).

(** Boolean comparisons of rationals: [x >= y] is [Qle_bool y x]. *)
Definition Qlt_bool (x y : Q) : bool := negb (Qle_bool y x).

(** ** A state monad for the methods that mutate the game or call out *)

Definition State (S A : Type) : Type := S → A * S.

#[global] Instance State_ret {S} : MRet (State S) := λ A (a : A) s, (a, s).
#[global] Instance State_bind {S} : MBind (State S) :=
  λ A B (k : A → State S B) (m : State S A) s, let '(a, s) := m s in k a s.

Definition get {S} : State S S := λ s, (s, s).
Definition modify {S} (f : S → S) : State S unit := λ s, (tt, f s).

(** ** Game *)

Module Game.

Record t : Type := Build {
  team_a_game_score : Z;
  team_b_game_score : Z;
  team_a_turn_score : Z;
  team_b_turn_score : Z;
  last_board_played : Z;
  turn_number : Z;
  time_of_turn_start : Q;
  sensors : list Sensor.t;
  state : GameState.t;
  tags : list Tag.t;
  minimum_sensor_weight : Q;
  rfid_polling_interval_in_seconds : Q;
  button_polling_interval_in_seconds : Q;
  timeout_in_seconds : Q;
  time_of_last_change : Q;
  time_of_last_sensor_read : Q;
  time_of_last_button_read : Q
}.

(** Assignments to the attributes the methods below write. *)

Definition set_team_a_game_score (v : Z) (g : t) : t :=
  Build v (team_b_game_score g) (team_a_turn_score g) (team_b_turn_score g)
    (last_board_played g) (turn_number g) (time_of_turn_start g) (sensors g) (state g)
    (tags g) (minimum_sensor_weight g) (rfid_polling_interval_in_seconds g)
    (button_polling_interval_in_seconds g) (timeout_in_seconds g)
    (time_of_last_change g) (time_of_last_sensor_read g) (time_of_last_button_read g).

Definition set_team_b_game_score (v : Z) (g : t) : t :=
  Build (team_a_game_score g) v (team_a_turn_score g) (team_b_turn_score g)
    (last_board_played g) (turn_number g) (time_of_turn_start g) (sensors g) (state g)
    (tags g) (minimum_sensor_weight g) (rfid_polling_interval_in_seconds g)
    (button_polling_interval_in_seconds g) (timeout_in_seconds g)
    (time_of_last_change g) (time_of_last_sensor_read g) (time_of_last_button_read g).

Definition set_team_a_turn_score (v : Z) (g : t) : t :=
  Build (team_a_game_score g) (team_b_game_score g) v (team_b_turn_score g)
    (last_board_played g) (turn_number g) (time_of_turn_start g) (sensors g) (state g)
    (tags g) (minimum_sensor_weight g) (rfid_polling_interval_in_seconds g)
    (button_polling_interval_in_seconds g) (timeout_in_seconds g)
    (time_of_last_change g) (time_of_last_sensor_read g) (time_of_last_button_read g).

Definition set_team_b_turn_score (v : Z) (g : t) : t :=
  Build (team_a_game_score g) (team_b_game_score g) (team_a_turn_score g) v
    (last_board_played g) (turn_number g) (time_of_turn_start g) (sensors g) (state g)
    (tags g) (minimum_sensor_weight g) (rfid_polling_interval_in_seconds g)
    (button_polling_interval_in_seconds g) (timeout_in_seconds g)
    (time_of_last_change g) (time_of_last_sensor_read g) (time_of_last_button_read g).

Definition set_last_board_played (v : Z) (g : t) : t :=
  Build (team_a_game_score g) (team_b_game_score g) (team_a_turn_score g)
    (team_b_turn_score g) v (turn_number g) (time_of_turn_start g) (sensors g) (state g)
    (tags g) (minimum_sensor_weight g) (rfid_polling_interval_in_seconds g)
    (button_polling_interval_in_seconds g) (timeout_in_seconds g)
    (time_of_last_change g) (time_of_last_sensor_read g) (time_of_last_button_read g).

Definition set_turn_number (v : Z) (g : t) : t :=
  Build (team_a_game_score g) (team_b_game_score g) (team_a_turn_score g)
    (team_b_turn_score g) (last_board_played g) v (time_of_turn_start g) (sensors g)
    (state g) (tags g) (minimum_sensor_weight g) (rfid_polling_interval_in_seconds g)
    (button_polling_interval_in_seconds g) (timeout_in_seconds g)
    (time_of_last_change g) (time_of_last_sensor_read g) (time_of_last_button_read g).

Definition set_time_of_turn_start (v : Q) (g : t) : t :=
  Build (team_a_game_score g) (team_b_game_score g) (team_a_turn_score g)
    (team_b_turn_score g) (last_board_played g) (turn_number g) v (sensors g)
    (state g) (tags g) (minimum_sensor_weight g) (rfid_polling_interval_in_seconds g)
    (button_polling_interval_in_seconds g) (timeout_in_seconds g)
    (time_of_last_change g) (time_of_last_sensor_read g) (time_of_last_button_read g).

(** The list [self.sensors] is never reassigned; this records the mutation
    of the sensor objects it holds. *)
Definition set_sensors (v : list Sensor.t) (g : t) : t :=
  Build (team_a_game_score g) (team_b_game_score g) (team_a_turn_score g)
    (team_b_turn_score g) (last_board_played g) (turn_number g) (time_of_turn_start g) v
    (state g) (tags g) (minimum_sensor_weight g) (rfid_polling_interval_in_seconds g)
    (button_polling_interval_in_seconds g) (timeout_in_seconds g)
    (time_of_last_change g) (time_of_last_sensor_read g) (time_of_last_button_read g).

Definition set_time_of_last_sensor_read (v : Q) (g : t) : t :=
  Build (team_a_game_score g) (team_b_game_score g) (team_a_turn_score g)
    (team_b_turn_score g) (last_board_played g) (turn_number g) (time_of_turn_start g)
    (sensors g) (state g) (tags g) (minimum_sensor_weight g)
    (rfid_polling_interval_in_seconds g) (button_polling_interval_in_seconds g)
    (timeout_in_seconds g) (time_of_last_change g) v (time_of_last_button_read g).

Definition set_time_of_last_button_read (v : Q) (g : t) : t :=
  Build (team_a_game_score g) (team_b_game_score g) (team_a_turn_score g)
    (team_b_turn_score g) (last_board_played g) (turn_number g) (time_of_turn_start g)
    (sensors g) (state g) (tags g) (minimum_sensor_weight g)
    (rfid_polling_interval_in_seconds g) (button_polling_interval_in_seconds g)
    (timeout_in_seconds g) (time_of_last_change g) (time_of_last_sensor_read g) v.

(** *** Filtering sensors and tags *)

Definition get_sensors_for_location (self : t) (location : Location.t) : list Sensor.t :=
  filter (λ sensor, Sensor.location sensor = location) (sensors self).

Definition get_tags_for_team (self : t) (team : Team.t) : list Tag.t :=
  filter (λ tag, Tag.team tag = team) (tags self).

(** The tag that has the given rfid, or [None]: the first one of the roster. *)
Definition get_tag_by_id (self : t) (rfid : string) : option Tag.t :=
  head (filter (λ tag, Tag.rfid tag = rfid) (tags self)).

(** *** Computing and checking scores *)

(** The three accumulators of [tally_location]. *)
Record Tally : Type := {
  max_score_per_tag : gmap string Z;
  hits_per_tag : gmap string Q;
  verified_tags : gset string
}.

Definition empty_tally : Tally :=
  {| max_score_per_tag := ∅; hits_per_tag := ∅; verified_tags := ∅ |}.

(** The three statements under the guard of the inner loop: the tag [key]
    was read by [sensor].  The [defaultdict]s answer 0 for a key they do not
    hold.  The weights and the threshold are Python numbers; they are exact
    rationals here, so what is stated of the value of an accumulated weight
    holds of the code where its additions are exact, and what is stated of
    the order of weights holds of it throughout. *)
Definition count_hit (self : t) (sensor : Sensor.t) (key : string) (acc : Tally) : Tally :=
  let max_score :=
    <[key := Z.max (default 0 (max_score_per_tag acc !! key))
                   (Sensor.points_to_award sensor)]> (max_score_per_tag acc) in
  let hits :=
    <[key := (default 0%Q (hits_per_tag acc !! key) + Sensor.weight sensor)%Q]>
      (hits_per_tag acc) in
  let verified :=
    if Qle_bool (minimum_sensor_weight self) (default 0%Q (hits !! key))
    then {[key]} ∪ verified_tags acc
    else verified_tags acc in
  {| max_score_per_tag := max_score; hits_per_tag := hits; verified_tags := verified |}.

(** Body of the inner loop, for one rfid of one sensor's latest reading:
    [tag is not None and (tag in tags_for_team)] guards the hit. *)
Definition tally_rfid (self : t) (tags_for_team : gset string) (sensor : Sensor.t)
    (acc : Tally) (rfid : string) : Tally :=
  match get_tag_by_id self rfid with
  | Some tag =>
      if decide (Tag.rfid tag ∈ tags_for_team)
      then count_hit self sensor (Tag.rfid tag) acc
      else acc
  | None => acc
  end.

(** The accumulators after the two nested loops. *)
Definition tally_loops (self : t) (team : Team.t) (location : Location.t) : Tally :=
  let tags_for_team : gset string :=
    list_to_set (Tag.rfid <$> get_tags_for_team self team) in
  foldl (λ acc sensor,
           foldl (tally_rfid self tags_for_team sensor) acc (Sensor.latest_reading sensor))
        empty_tally (get_sensors_for_location self location).

Definition tally_location (self : t) (team : Team.t) (location : Location.t) : Z :=
  let acc := tally_loops self team location in
  foldl (λ tally verified_tag, tally + default 0 (max_score_per_tag acc !! verified_tag))
        0 (elements (verified_tags acc)).

Definition tally_turn_board_1 (self : t) (team : Team.t) : Z :=
  let on_board := tally_location self team Location.BOARD_1 in
  let in_hole := tally_location self team Location.HOLE_1 in
  on_board + in_hole.

Definition tally_turn_board_2 (self : t) (team : Team.t) : Z :=
  let on_board := tally_location self team Location.BOARD_2 in
  let in_hole := tally_location self team Location.HOLE_2 in
  on_board + in_hole.

Definition update_turn_score (board_number : Z) (self : t) : t :=
  if decide (board_number = 1) then
    let self := set_team_a_turn_score (tally_turn_board_1 self Team.A) self in
    let self := set_team_b_turn_score (tally_turn_board_1 self Team.B) self in
    set_last_board_played 1 self
  else
    let self := set_team_a_turn_score (tally_turn_board_2 self Team.A) self in
    let self := set_team_b_turn_score (tally_turn_board_2 self Team.B) self in
    set_last_board_played 2 self.

Definition are_boards_clear (self : t) : bool :=
  bool_decide (0 = tally_turn_board_1 self Team.A + tally_turn_board_1 self Team.B).

Definition total_score (self : t) (team : Team.t) : Z :=
  if decide (team = Team.A) then
    team_a_game_score self + Z.max 0 (team_a_turn_score self - team_b_turn_score self)
  else
    team_b_game_score self + Z.max 0 (team_b_turn_score self - team_a_turn_score self).

Definition have_reached_winning_score (self : t) : bool :=
  bool_decide (21 ≤ total_score self Team.A) || bool_decide (21 ≤ total_score self Team.B).

(** *** Methods that write attributes or call out

    They run on the game together with the world. *)

Definition Run : Type → Type := State (t * World).

Definition this : Run t := λ s, (fst s, s).
Definition assign (f : t → t) : Run unit := modify (λ s, (f (fst s), snd s)).
Definition call {A} (f : World → A * World) : Run A :=
  λ s, let '(a, w) := f (snd s) in (a, (fst s, w)).
Definition answer {A} (a : A) : Run A := mret a.

Definition new_game : Run unit :=
  assign (set_team_a_game_score 0);;
  assign (set_team_b_game_score 0);;
  assign (set_team_a_turn_score 0);;
  assign (set_team_b_turn_score 0);;
  assign (set_last_board_played 0);;
  assign (set_turn_number 1);;
  now ← call time_time;
  assign (set_time_of_turn_start now).

Definition end_turn : Run unit :=
  self ← this;
  let score_diff := team_a_turn_score self - team_b_turn_score self in
  (if decide (0 < score_diff)
   then assign (set_team_a_game_score (team_a_game_score self + score_diff))
   else assign (set_team_b_game_score (team_b_game_score self + Z.abs score_diff)));;
  assign (set_team_a_turn_score 0);;
  assign (set_team_b_turn_score 0);;
  self ← this;
  assign (set_turn_number (turn_number self + 1));;
  now ← call time_time;
  assign (set_time_of_turn_start now).

(** **** Timing related *)

Definition current_turn_duration_in_seconds : Run Q :=
  now ← call time_time;
  self ← this;
  answer (now - time_of_turn_start self)%Q.

(** **** I/O device interfaces *)

Definition read_buttons : Run (bool * bool * bool) :=
  now ← call time_time;
  assign (set_time_of_last_button_read now);;
  call call_button_state.

(** [for sensor in self.sensors: sensor.read()] *)
Fixpoint read_each (sensors : list Sensor.t) (w : World) : list Sensor.t * World :=
  match sensors with
  | [] => ([], w)
  | sensor :: rest =>
      let '(sensor, w) := Sensor_read sensor w in
      let '(rest, w) := read_each rest w in
      (sensor :: rest, w)
  end.

Definition read_sensors : Run unit :=
  self ← this;
  sensors ← call (read_each (sensors self));
  assign (set_sensors sensors);;
  now ← call time_time;
  assign (set_time_of_last_sensor_read now).

(** The display callback's answer is not used by any caller. *)
Definition display (message : string) : Run unit :=
  self ← this;
  call (λ w, (tt, call_display message
    (total_score self Team.A, team_a_game_score self, team_a_turn_score self,
     total_score self Team.B, team_b_game_score self, team_b_turn_score self) w)).

(** **** Event reader

    The three parts of [get_event] in the order of the source; a part that
    executes a [return] answers [Some] event, one that falls through to the
    next part answers [None]. *)

Definition get_event_buttons (now : Q) : Run (option GameEvent.t) :=
  duration ← current_turn_duration_in_seconds;
  self ← this;
  if Qlt_bool 4 duration
     && Qle_bool (button_polling_interval_in_seconds self)
                 (now - time_of_last_button_read self)%Q
  then
    button_state ← read_buttons;
    let '(board_1, board_2, quit_signal) := (button_state : bool * bool * bool) in
    if board_1 || board_2 then answer (Some GameEvent.BUTTON_PRESSED)
    else if quit_signal then answer (Some GameEvent.QUIT)
    else answer None
  else answer None.

Definition get_event_sensors (now : Q) : Run (option GameEvent.t) :=
  self ← this;
  if Qle_bool (rfid_polling_interval_in_seconds self) (now - time_of_last_sensor_read self)%Q
  then
    read_sensors;;
    self ← this;
    let a1 := tally_turn_board_1 self Team.A in
    let b1 := tally_turn_board_1 self Team.B in
    let a2 := tally_turn_board_2 self Team.A in
    let b2 := tally_turn_board_2 self Team.B in
    if decide (0 < a1 + b1) then
      if decide (a1 ≠ team_a_turn_score self ∨ b1 ≠ team_b_turn_score self) then
        assign (set_last_board_played 1);;
        answer (Some GameEvent.TAGS_CHANGED_ON_BOARD_1)
      else answer None
    else if decide (0 < a2 + b2) then
      if decide (a2 ≠ team_a_turn_score self ∨ b2 ≠ team_b_turn_score self) then
        assign (set_last_board_played 2);;
        answer (Some GameEvent.TAGS_CHANGED_ON_BOARD_2)
      else answer None
    else if decide (0 < team_a_turn_score self + team_b_turn_score self) then
      if decide (last_board_played self = 1)
      then answer (Some GameEvent.TAGS_CHANGED_ON_BOARD_1)
      else answer (Some GameEvent.TAGS_CHANGED_ON_BOARD_2)
    else answer None
  else answer None.

Definition get_event_timeout : Run GameEvent.t :=
  duration ← current_turn_duration_in_seconds;
  self ← this;
  if Qle_bool (timeout_in_seconds self) duration
  then answer GameEvent.TIMEOUT
  else answer GameEvent.NO_CHANGE.

Definition get_event : Run GameEvent.t :=
  now ← call time_time;
  pressed ← get_event_buttons now;
  match pressed with
  | Some event => answer event
  | None =>
      changed ← get_event_sensors now;
      match changed with
      | Some event => answer event
      | None => get_event_timeout
      end
  end.

(** **** Event handler for the TURN_OVER state *)

Definition process_turn_over_state (event : GameEvent.t) : Run GameState.t :=
  self ← this;
  if are_boards_clear self then answer GameState.BOARD_CLEAR
  else if have_reached_winning_score self then
    display "Game Over";;
    answer GameState.GAME_OVER
  else if decide (event = GameEvent.TIMEOUT) then answer GameState.GAME_OVER
  else if decide (event = GameEvent.BUTTON_PRESSED) then answer GameState.GAME_OVER
  else answer GameState.TURN_OVER.

(** **** Constructor *)

Definition init (tags : list Tag.t) (sensors : list Sensor.t) (w : World) : t * World :=
  let '(turn_start, w) := time_time w in
  let '(last_change, w) := time_time w in
  let '(last_sensor_read, w) := time_time w in
  let '(last_button_read, w) := time_time w in
  ({| team_a_game_score := 0; team_b_game_score := 0;
      team_a_turn_score := 0; team_b_turn_score := 0;
      last_board_played := 0; turn_number := 1;
      time_of_turn_start := turn_start;
      sensors := sensors;
      state := GameState.START;
      tags := tags;
      minimum_sensor_weight := 1;
      rfid_polling_interval_in_seconds := 2.5;
      button_polling_interval_in_seconds := 0.25;
      timeout_in_seconds := 45;
      time_of_last_change := last_change;
      time_of_last_sensor_read := last_sensor_read;
      time_of_last_button_read := last_button_read |}, w).

Definition set_state (v : GameState.t) (g : t) : t :=
  Build (team_a_game_score g) (team_b_game_score g) (team_a_turn_score g)
    (team_b_turn_score g) (last_board_played g) (turn_number g) (time_of_turn_start g)
    (sensors g) v (tags g) (minimum_sensor_weight g)
    (rfid_polling_interval_in_seconds g) (button_polling_interval_in_seconds g)
    (timeout_in_seconds g) (time_of_last_change g) (time_of_last_sensor_read g)
    (time_of_last_button_read g).

(** [min] of three numbers: the first one no later one is strictly below. *)
Definition poll_interval_in_seconds (self : t) : Q :=
  let least := rfid_polling_interval_in_seconds self in
  let least :=
    if Qlt_bool (button_polling_interval_in_seconds self) least
    then button_polling_interval_in_seconds self else least in
  if Qlt_bool (timeout_in_seconds self) least then timeout_in_seconds self else least.

(** **** Event handlers of the other states *)

(** [f'Turn {self.turn_number}'] *)
Definition turn_message (self : t) : string := "Turn " +:+ pretty (turn_number self).

Definition process_start_state (event : GameEvent.t) : Run GameState.t :=
  match event with
  | GameEvent.NO_CHANGE => answer GameState.START
  | GameEvent.TIMEOUT => answer GameState.START
  | GameEvent.TAGS_CHANGED_ON_BOARD_1 =>
      assign (set_turn_number 1);;
      assign (update_turn_score 1);;
      display EmptyString;;
      answer GameState.PLAYING_BOARD_1
  | GameEvent.TAGS_CHANGED_ON_BOARD_2 =>
      assign (set_turn_number 1);;
      assign (update_turn_score 2);;
      self ← this;
      display (turn_message self);;
      answer GameState.PLAYING_BOARD_2
  | GameEvent.BUTTON_PRESSED => answer GameState.START
  | GameEvent.QUIT => answer GameState.START
  end.

Definition process_playing_board_1_state (event : GameEvent.t) : Run GameState.t :=
  self ← this;
  if have_reached_winning_score self then
    display "Game Over";;
    answer GameState.GAME_OVER
  else
    match event with
    | GameEvent.NO_CHANGE => answer GameState.PLAYING_BOARD_1
    | GameEvent.TIMEOUT =>
        assign (update_turn_score 1);;
        end_turn;;
        self ← this;
        display (turn_message self);;
        answer GameState.TURN_OVER
    | GameEvent.TAGS_CHANGED_ON_BOARD_1 =>
        assign (update_turn_score 1);;
        self ← this;
        display (turn_message self);;
        answer GameState.PLAYING_BOARD_1
    | GameEvent.TAGS_CHANGED_ON_BOARD_2 => answer GameState.PLAYING_BOARD_1
    | GameEvent.BUTTON_PRESSED =>
        assign (update_turn_score 1);;
        end_turn;;
        self ← this;
        display (turn_message self);;
        answer GameState.TURN_OVER
    | GameEvent.QUIT => answer GameState.PLAYING_BOARD_1
    end.

Definition process_playing_board_2_state (event : GameEvent.t) : Run GameState.t :=
  self ← this;
  if have_reached_winning_score self then
    display "Game Over";;
    answer GameState.GAME_OVER
  else
    match event with
    | GameEvent.NO_CHANGE => answer GameState.PLAYING_BOARD_2
    | GameEvent.TIMEOUT =>
        assign (update_turn_score 2);;
        end_turn;;
        self ← this;
        display (turn_message self);;
        answer GameState.TURN_OVER
    | GameEvent.TAGS_CHANGED_ON_BOARD_1 => answer GameState.PLAYING_BOARD_2
    | GameEvent.TAGS_CHANGED_ON_BOARD_2 =>
        assign (update_turn_score 2);;
        self ← this;
        display (turn_message self);;
        answer GameState.PLAYING_BOARD_2
    | GameEvent.BUTTON_PRESSED =>
        assign (update_turn_score 2);;
        end_turn;;
        self ← this;
        display (turn_message self);;
        answer GameState.TURN_OVER
    | GameEvent.QUIT => answer GameState.PLAYING_BOARD_2
    end.

Definition process_board_clear_state (event : GameEvent.t) : Run GameState.t :=
  self ← this;
  if have_reached_winning_score self then
    display "Game Over";;
    answer GameState.GAME_OVER
  else
    match event with
    | GameEvent.NO_CHANGE => answer GameState.BOARD_CLEAR
    | GameEvent.TIMEOUT => answer GameState.GAME_OVER
    | GameEvent.TAGS_CHANGED_ON_BOARD_1 =>
        assign (update_turn_score 1);;
        self ← this;
        display (turn_message self);;
        answer GameState.PLAYING_BOARD_1
    | GameEvent.TAGS_CHANGED_ON_BOARD_2 =>
        assign (update_turn_score 2);;
        self ← this;
        display (turn_message self);;
        answer GameState.PLAYING_BOARD_2
    | GameEvent.BUTTON_PRESSED => answer GameState.GAME_OVER
    | GameEvent.QUIT => answer GameState.BOARD_CLEAR
    end.

Definition process_playing_game_over_state (event : GameEvent.t) : Run GameState.t :=
  display "Game Over";;
  match event with
  | GameEvent.NO_CHANGE => answer GameState.GAME_OVER
  | GameEvent.TIMEOUT =>
      new_game;;
      display "New Game";;
      answer GameState.START
  | GameEvent.TAGS_CHANGED_ON_BOARD_1 =>
      new_game;;
      assign (update_turn_score 1);;
      display "New Game";;
      answer GameState.PLAYING_BOARD_1
  | GameEvent.TAGS_CHANGED_ON_BOARD_2 =>
      new_game;;
      assign (update_turn_score 2);;
      display "New Game";;
      answer GameState.PLAYING_BOARD_2
  | GameEvent.BUTTON_PRESSED =>
      new_game;;
      display "New Game";;
      answer GameState.START
  | GameEvent.QUIT => answer GameState.GAME_OVER
  end.

(** **** The polling loop *)

(** The dictionary [state_machine] of [play]. *)
Definition state_machine (state : GameState.t) : GameEvent.t → Run GameState.t :=
  match state with
  | GameState.START => process_start_state
  | GameState.PLAYING_BOARD_1 => process_playing_board_1_state
  | GameState.PLAYING_BOARD_2 => process_playing_board_2_state
  | GameState.BOARD_CLEAR => process_board_clear_state
  | GameState.TURN_OVER => process_turn_over_state
  | GameState.GAME_OVER => process_playing_game_over_state
  end.

Definition GameEvent_name (event : GameEvent.t) : string :=
  match event with
  | GameEvent.TAGS_CHANGED_ON_BOARD_1 => "TAGS_CHANGED_ON_BOARD_1"
  | GameEvent.TAGS_CHANGED_ON_BOARD_2 => "TAGS_CHANGED_ON_BOARD_2"
  | GameEvent.NO_CHANGE => "NO_CHANGE"
  | GameEvent.BUTTON_PRESSED => "BUTTON_PRESSED"
  | GameEvent.TIMEOUT => "TIMEOUT"
  | GameEvent.QUIT => "QUIT"
  end.

Definition GameState_name (state : GameState.t) : string :=
  match state with
  | GameState.START => "START"
  | GameState.PLAYING_BOARD_1 => "PLAYING_BOARD_1"
  | GameState.PLAYING_BOARD_2 => "PLAYING_BOARD_2"
  | GameState.TURN_OVER => "TURN_OVER"
  | GameState.BOARD_CLEAR => "BOARD_CLEAR"
  | GameState.GAME_OVER => "GAME_OVER"
  end.

(** What [play] does besides changing the game and calling the callbacks
    of the world: lines printed, messages handed to [self.log], and sleeps,
    in the order in which they happen. *)
Inductive Effect : Type :=
  | Printed (line : string)
  | Logged (message : string)
  | Slept (seconds : Q).

(** One pass through the body of the [while] loop. *)
Definition play_iteration (poll_interval : Q) : Run (GameEvent.t * list Effect) :=
  event ← get_event;
  self ← this;
  let action := state_machine (state self) in
  let previous_state := state self in
  next_state ← action event;
  assign (set_state next_state);;
  self ← this;
  let transition_message :=
    "Event " +:+ GameEvent_name event +:+ " transitions From "
      +:+ GameState_name previous_state +:+ " To " +:+ GameState_name (state self) in
  let logged :=
    if decide (previous_state ≠ GameState.START ∨ state self ≠ GameState.START
               ∨ event ≠ GameEvent.NO_CHANGE)
    then [Logged transition_message] else [] in
  answer (event, logged ++ [Slept poll_interval]).

(** The [while event != GameEvent.QUIT] loop, run for at most [fuel]
    passes: [Some] effects when the loop has ended, [None] when it is still
    running after [fuel] passes. *)
Fixpoint play_loop (fuel : nat) (poll_interval : Q) : Run (option (list Effect)) :=
  match fuel with
  | O => answer None
  | S fuel =>
      pass ← play_iteration poll_interval;
      if decide (pass.1 = GameEvent.QUIT) then answer (Some pass.2)
      else
        rest ← play_loop fuel poll_interval;
        answer ((λ effects, pass.2 ++ effects) <$> rest)
  end.

Definition play (fuel : nat) : Run (option (list Effect)) :=
  assign (set_state GameState.START);;
  self ← this;
  let poll_interval := poll_interval_in_seconds self in
  rest ← play_loop fuel poll_interval;
  answer ((λ effects, Printed ("Begin game" +:+ String (Ascii.ascii_of_nat 10) EmptyString) :: effects) <$> rest).

End Game.

(** ** CornHoleApp: the manual score board

    The list [self.scores] holds A's fixed score, A's turn score, B's fixed
    score and B's turn score.  Reading [self.scores[i]] beyond the end of
    the list raises [IndexError]: the methods that index the list answer
    [None] then.  The five [tk.StringVar]s are the strings they hold. *)

Module CornHoleApp.

Record t : Type := Build {
  scores : list Z;
  turn_number : Z;
  team_a_score_variable : string;
  team_b_score_variable : string;
  team_a_turn_score_variable : string;
  team_b_turn_score_variable : string;
  message_variable : string
}.

Definition set_scores (v : list Z) (self : t) : t :=
  Build v (turn_number self) (team_a_score_variable self) (team_b_score_variable self)
    (team_a_turn_score_variable self) (team_b_turn_score_variable self)
    (message_variable self).

Definition set_turn_number (v : Z) (self : t) : t :=
  Build (scores self) v (team_a_score_variable self) (team_b_score_variable self)
    (team_a_turn_score_variable self) (team_b_turn_score_variable self)
    (message_variable self).

Definition zero_scores (self : t) : t := set_scores [0; 0; 0; 0] self.

Definition change_turn_score (team_letter : string) (delta : Z) (self : t) : option t :=
  if decide (team_letter = "A") then
    turn ← scores self !! 1%nat;
    Some (set_scores (<[1%nat := Z.max 0 (turn + delta)]> (scores self)) self)
  else
    turn ← scores self !! 3%nat;
    Some (set_scores (<[3%nat := Z.max 0 (turn + delta)]> (scores self)) self).

Definition get_total_score (team_letter : string) (self : t) : option Z :=
  if decide (team_letter = "A") then
    fixed ← scores self !! 0%nat;
    turn ← scores self !! 1%nat;
    other ← scores self !! 3%nat;
    Some (fixed + Z.max 0 (turn - other))
  else
    fixed ← scores self !! 2%nat;
    turn ← scores self !! 3%nat;
    other ← scores self !! 1%nat;
    Some (fixed + Z.max 0 (turn - other)).

Definition redisplay_scores (self : t) : option t :=
  a_score ← get_total_score "A" self;
  b_score ← get_total_score "B" self;
  a_turn ← scores self !! 1%nat;
  b_turn ← scores self !! 3%nat;
  let message :=
    if bool_decide (21 ≤ a_score) && bool_decide (b_score < a_score) then "Home wins!"
    else if bool_decide (21 ≤ b_score) && bool_decide (a_score < b_score)
    then "Visitors win!"
    else "Turn " +:+ pretty (turn_number self) in
  Some (Build (scores self) (turn_number self) (pretty a_score) (pretty b_score)
          ("   " +:+ pretty a_turn) ("   " +:+ pretty b_turn) message).

Definition new_game (self : t) : option t :=
  let self := zero_scores self in
  let self := set_turn_number 1 self in
  redisplay_scores self.

Definition change_turn_score_and_redisplay (team_letter : string) (delta : Z) (self : t)
    : option t :=
  self ← change_turn_score team_letter delta self;
  redisplay_scores self.

Definition end_turn (self : t) : option t :=
  a_total_score ← get_total_score "A" self;
  b_total_score ← get_total_score "B" self;
  let self := set_scores [a_total_score; 0; b_total_score; 0] self in
  let self := set_turn_number (turn_number self + 1) self in
  redisplay_scores self.

End CornHoleApp.

(** ** Vocabulary of the statements *)

(** What stays of a sensor when it is read: everything but the cached
    reading. *)
Definition Sensor_fixed (s : Sensor.t) : string * Q * Location.t * Z :=
  (Sensor.id s, Sensor.weight s, Sensor.location s, Sensor.points_to_award s).

(** [event_frame g g']: [g'] differs from [g] at most in the two last-read
    timestamps, in [last_board_played] and in the sensors' cached readings. *)
Record event_frame (g g' : Game.t) : Prop := {
  frame_a_game : Game.team_a_game_score g' = Game.team_a_game_score g;
  frame_b_game : Game.team_b_game_score g' = Game.team_b_game_score g;
  frame_a_turn : Game.team_a_turn_score g' = Game.team_a_turn_score g;
  frame_b_turn : Game.team_b_turn_score g' = Game.team_b_turn_score g;
  frame_turn_number : Game.turn_number g' = Game.turn_number g;
  frame_turn_start : Game.time_of_turn_start g' = Game.time_of_turn_start g;
  frame_state : Game.state g' = Game.state g;
  frame_tags : Game.tags g' = Game.tags g;
  frame_minimum : Game.minimum_sensor_weight g' = Game.minimum_sensor_weight g;
  frame_rfid_interval :
    Game.rfid_polling_interval_in_seconds g' = Game.rfid_polling_interval_in_seconds g;
  frame_button_interval :
    Game.button_polling_interval_in_seconds g'
    = Game.button_polling_interval_in_seconds g;
  frame_timeout : Game.timeout_in_seconds g' = Game.timeout_in_seconds g;
  frame_last_change : Game.time_of_last_change g' = Game.time_of_last_change g;
  frame_sensors : Sensor_fixed <$> Game.sensors g' = Sensor_fixed <$> Game.sensors g
}.

(** *** The tally, in the words of its description

    An rfid counts for a team when the roster holds a tag of that team with
    that rfid.  The sensors at a location that read an rfid are its readers
    there; their weights add up to its accumulated weight, and the largest
    of their points (or 0) is its best points. *)

Definition is_team_tag (g : Game.t) (team : Team.t) (rfid : string) : bool :=
  bool_decide (rfid ∈ Tag.rfid <$> Game.get_tags_for_team g team).

Definition readers (g : Game.t) (location : Location.t) (rfid : string) : list Sensor.t :=
  filter (λ sensor, rfid ∈ Sensor.latest_reading sensor)
         (Game.get_sensors_for_location g location).

Definition accumulated_weight (g : Game.t) (location : Location.t) (rfid : string) : Q :=
  foldr (λ sensor total, Sensor.weight sensor + total)%Q 0%Q (readers g location rfid).

Definition best_points (g : Game.t) (location : Location.t) (rfid : string) : Z :=
  foldr (λ sensor best, Z.max (Sensor.points_to_award sensor) best) 0
        (readers g location rfid).

(** How often a reading lists an rfid ([list.count]), and the weight of the
    sensors at a location when each counts once per occurrence of the rfid in
    its reading. *)
Definition occurrences (rfid : string) (sensor : Sensor.t) : nat :=
  length (filter (λ r, r = rfid) (Sensor.latest_reading sensor)).

Definition occurrence_weight (g : Game.t) (location : Location.t) (rfid : string) : Q :=
  foldr (λ sensor total,
           inject_Z (Z.of_nat (occurrences rfid sensor)) * Sensor.weight sensor + total)%Q
        0%Q (Game.get_sensors_for_location g location).

(** Every rfid some sensor at the location lists. *)
Definition rfids_read (g : Game.t) (location : Location.t) : list string :=
  Game.get_sensors_for_location g location ≫= Sensor.latest_reading.

(** The rfids of the team read at the location whose weight, measured by
    [weigh], reaches the threshold. *)
Definition credited (weigh : Game.t → Location.t → string → Q)
    (g : Game.t) (team : Team.t) (location : Location.t) : gset string :=
  list_to_set
    (filter (λ rfid, is_team_tag g team rfid
                     && Qle_bool (Game.minimum_sensor_weight g) (weigh g location rfid)
                     = true)
            (rfids_read g location)).

(** The sum of [points] over a set of rfids, each counted once. *)
Definition sum_points (points : string → Z) (rfids : gset string) : Z :=
  foldr (λ rfid total, points rfid + total) 0 (elements rfids).

(** The hits of a location in the order in which the two loops of
    [tally_location] meet them: each rfid of the team, with the sensor whose
    reading lists it. *)
Definition sensor_hits (g : Game.t) (team : Team.t) (sensor : Sensor.t)
    : list (string * Sensor.t) :=
  (λ rfid, (rfid, sensor))
    <$> filter (λ rfid, is_team_tag g team rfid = true) (Sensor.latest_reading sensor).

Definition location_hits (g : Game.t) (team : Team.t) (location : Location.t)
    : list (string * Sensor.t) :=
  Game.get_sensors_for_location g location ≫= sensor_hits g team.

(** One hit applied to the accumulators. *)
Definition apply_hit (g : Game.t) (acc : Game.Tally) (hit : string * Sensor.t) : Game.Tally :=
  Game.count_hit g hit.2 hit.1 acc.

Definition points_seen (rfid : string) (hits : list (string * Sensor.t)) : Z :=
  foldr (λ hit best,
           if decide (hit.1 = rfid) then Z.max (Sensor.points_to_award hit.2) best
           else best)
        0 hits.

Definition weight_seen (rfid : string) (hits : list (string * Sensor.t)) : Q :=
  foldr (λ hit total,
           if decide (hit.1 = rfid) then (Sensor.weight hit.2 + total)%Q else total)
        0%Q hits.

(** The tally of the board [update_turn_score] is asked for: board 1 for
    board number 1, board 2 for every other number. *)
Definition tally_turn_board (board_number : Z) (g : Game.t) (team : Team.t) : Z :=
  if decide (board_number = 1) then Game.tally_turn_board_1 g team
  else Game.tally_turn_board_2 g team.

(** The game in which every sensor of board 2 (board or hole) has its cached
    reading replaced by [reading sensor]. *)
Definition with_board_2_readings (reading : Sensor.t → list string) (g : Game.t) : Game.t :=
  Game.set_sensors
    ((λ sensor,
        if decide (Sensor.location sensor = Location.BOARD_2
                   ∨ Sensor.location sensor = Location.HOLE_2)
        then Sensor.set_latest_reading sensor (reading sensor)
        else sensor) <$> Game.sensors g)
    g.

(** *** Invariants of the polling loop *)

(** The scores and counters stay in the ranges of the data model. *)
Definition scores_in_range (g : Game.t) : Prop :=
  0 ≤ Game.team_a_game_score g ∧ 0 ≤ Game.team_b_game_score g
  ∧ 0 ≤ Game.team_a_turn_score g ∧ 0 ≤ Game.team_b_turn_score g
  ∧ 1 ≤ Game.turn_number g
  ∧ (Game.last_board_played g = 0 ∨ Game.last_board_played g = 1
     ∨ Game.last_board_played g = 2).

(** What the state says about the scores: nothing has been scored in START,
    and no turn is running in TURN_OVER and BOARD_CLEAR. *)
Definition settled_in (state : GameState.t) (g : Game.t) : Prop :=
  match state with
  | GameState.START =>
      Game.team_a_game_score g = 0 ∧ Game.team_b_game_score g = 0
      ∧ Game.team_a_turn_score g = 0 ∧ Game.team_b_turn_score g = 0
  | GameState.TURN_OVER | GameState.BOARD_CLEAR =>
      Game.team_a_turn_score g = 0 ∧ Game.team_b_turn_score g = 0
  | GameState.PLAYING_BOARD_1 | GameState.PLAYING_BOARD_2 | GameState.GAME_OVER => True
  end.

(** The arrows of the state diagram. *)
Definition may_follow (state next_state : GameState.t) : bool :=
  match state, next_state with
  | GameState.START,
    (GameState.START | GameState.PLAYING_BOARD_1 | GameState.PLAYING_BOARD_2) => true
  | GameState.PLAYING_BOARD_1,
    (GameState.PLAYING_BOARD_1 | GameState.TURN_OVER | GameState.GAME_OVER) => true
  | GameState.PLAYING_BOARD_2,
    (GameState.PLAYING_BOARD_2 | GameState.TURN_OVER | GameState.GAME_OVER) => true
  | GameState.TURN_OVER,
    (GameState.TURN_OVER | GameState.BOARD_CLEAR | GameState.GAME_OVER) => true
  | GameState.BOARD_CLEAR,
    (GameState.BOARD_CLEAR | GameState.PLAYING_BOARD_1 | GameState.PLAYING_BOARD_2
     | GameState.GAME_OVER) => true
  | GameState.GAME_OVER,
    (GameState.GAME_OVER | GameState.START | GameState.PLAYING_BOARD_1
     | GameState.PLAYING_BOARD_2) => true
  | _, _ => false
  end.

(** The state in which a turn on the given board is played. *)
Definition playing_state (board_number : Z) : GameState.t :=
  if decide (board_number = 1) then GameState.PLAYING_BOARD_1
  else GameState.PLAYING_BOARD_2.

(** The game of the sensor engine that holds the scores of a score board
    [fixed_a; turn_a; fixed_b; turn_b]. *)
Definition with_scores (fixed_a turn_a fixed_b turn_b : Z) (g : Game.t) : Game.t :=
  Game.set_team_b_turn_score turn_b
    (Game.set_team_a_turn_score turn_a
       (Game.set_team_b_game_score fixed_b (Game.set_team_a_game_score fixed_a g))).

(** *** The handlers without their display calls *)

(** The game after [end_turn] at time [now]. *)
Definition turn_ended (now : Q) (g : Game.t) : Game.t :=
  let score_diff := Game.team_a_turn_score g - Game.team_b_turn_score g in
  let g :=
    if decide (0 < score_diff)
    then Game.set_team_a_game_score (Game.team_a_game_score g + score_diff) g
    else Game.set_team_b_game_score (Game.team_b_game_score g + Z.abs score_diff) g in
  Game.set_time_of_turn_start now
    (Game.set_turn_number (Game.turn_number g + 1)
       (Game.set_team_b_turn_score 0 (Game.set_team_a_turn_score 0 g))).

(** The game after [new_game] at time [now]. *)
Definition game_reset (now : Q) (g : Game.t) : Game.t :=
  Game.set_time_of_turn_start now
    (Game.set_turn_number 1
       (Game.set_last_board_played 0
          (Game.set_team_b_turn_score 0
             (Game.set_team_a_turn_score 0
                (Game.set_team_b_game_score 0 (Game.set_team_a_game_score 0 g)))))).

(** The next state and the game that the handler of [state] produces for
    [event], the clock reading [now] when it asks for the time. *)
Definition handled (state : GameState.t) (event : GameEvent.t) (now : Q) (g : Game.t)
    : GameState.t * Game.t :=
  match state with
  | GameState.START =>
      match event with
      | GameEvent.TAGS_CHANGED_ON_BOARD_1 =>
          (GameState.PLAYING_BOARD_1, Game.update_turn_score 1 (Game.set_turn_number 1 g))
      | GameEvent.TAGS_CHANGED_ON_BOARD_2 =>
          (GameState.PLAYING_BOARD_2, Game.update_turn_score 2 (Game.set_turn_number 1 g))
      | _ => (GameState.START, g)
      end
  | GameState.PLAYING_BOARD_1 =>
      if Game.have_reached_winning_score g then (GameState.GAME_OVER, g)
      else
        match event with
        | GameEvent.TIMEOUT | GameEvent.BUTTON_PRESSED =>
            (GameState.TURN_OVER, turn_ended now (Game.update_turn_score 1 g))
        | GameEvent.TAGS_CHANGED_ON_BOARD_1 =>
            (GameState.PLAYING_BOARD_1, Game.update_turn_score 1 g)
        | _ => (GameState.PLAYING_BOARD_1, g)
        end
  | GameState.PLAYING_BOARD_2 =>
      if Game.have_reached_winning_score g then (GameState.GAME_OVER, g)
      else
        match event with
        | GameEvent.TIMEOUT | GameEvent.BUTTON_PRESSED =>
            (GameState.TURN_OVER, turn_ended now (Game.update_turn_score 2 g))
        | GameEvent.TAGS_CHANGED_ON_BOARD_2 =>
            (GameState.PLAYING_BOARD_2, Game.update_turn_score 2 g)
        | _ => (GameState.PLAYING_BOARD_2, g)
        end
  | GameState.TURN_OVER =>
      if Game.are_boards_clear g then (GameState.BOARD_CLEAR, g)
      else if Game.have_reached_winning_score g then (GameState.GAME_OVER, g)
      else
        match event with
        | GameEvent.TIMEOUT | GameEvent.BUTTON_PRESSED => (GameState.GAME_OVER, g)
        | _ => (GameState.TURN_OVER, g)
        end
  | GameState.BOARD_CLEAR =>
      if Game.have_reached_winning_score g then (GameState.GAME_OVER, g)
      else
        match event with
        | GameEvent.TIMEOUT | GameEvent.BUTTON_PRESSED => (GameState.GAME_OVER, g)
        | GameEvent.TAGS_CHANGED_ON_BOARD_1 =>
            (GameState.PLAYING_BOARD_1, Game.update_turn_score 1 g)
        | GameEvent.TAGS_CHANGED_ON_BOARD_2 =>
            (GameState.PLAYING_BOARD_2, Game.update_turn_score 2 g)
        | _ => (GameState.BOARD_CLEAR, g)
        end
  | GameState.GAME_OVER =>
      match event with
      | GameEvent.TIMEOUT | GameEvent.BUTTON_PRESSED =>
          (GameState.START, game_reset now g)
      | GameEvent.TAGS_CHANGED_ON_BOARD_1 =>
          (GameState.PLAYING_BOARD_1, Game.update_turn_score 1 (game_reset now g))
      | GameEvent.TAGS_CHANGED_ON_BOARD_2 =>
          (GameState.PLAYING_BOARD_2, Game.update_turn_score 2 (game_reset now g))
      | _ => (GameState.GAME_OVER, g)
      end
  end.

(** ** Sample data

    A roster of four bags and one sensor on each board and hole, in the shape
    of the source's [TestGame]; the clock starts at 100 s and advances one
    second per reading. *)

Module Sample.

Definition tags : list Tag.t :=
  [ Tag.Build "A1" Team.A; Tag.Build "A2" Team.A;
    Tag.Build "B1" Team.B; Tag.Build "B2" Team.B ].

Definition sensors (top_1 hole_1 top_2 hole_2 : list string) : list Sensor.t :=
  [ Sensor.Build "TOP_1" 1 Location.BOARD_1 top_1 1;
    Sensor.Build "HOLE_1" 1 Location.HOLE_1 hole_1 3;
    Sensor.Build "TOP_2" 1 Location.BOARD_2 top_2 1;
    Sensor.Build "HOLE_2" 1 Location.HOLE_2 hole_2 3 ].

(** A world in which every sensor reads bag A1, the board 1 button is held
    down, and nothing has been displayed. *)
Definition world : World :=
  {| clock := λ n, (100 + inject_Z (Z.of_nat n))%Q;
     button_states := λ _, (true, false, false);
     tag_reads := λ _ _, ["A1"];
     displayed := [] |}.

(** A game constructed at 0 s .. 3 s with the given cached readings. *)
Definition game (top_1 hole_1 top_2 hole_2 : list string) : Game.t :=
  (Game.init tags (sensors top_1 hole_1 top_2 hole_2)
     {| clock := λ n, inject_Z (Z.of_nat n);
        button_states := λ _, (false, false, false);
        tag_reads := λ _ _, [];
        displayed := [] |}).1.

(** The same game, the turn having started at 98 s. *)
Definition game_just_started : Game.t :=
  Game.set_time_of_turn_start 98 (game [] [] [] []).

(** One half-weight sensor on board 1 whose reading lists bag A1 twice;
    the threshold is 1. *)
Definition game_repeated_read : Game.t :=
  Game.set_sensors [Sensor.Build "TOP_1" 0.5 Location.BOARD_1 ["A1"; "A1"] 1]
    (game [] [] [] []).

(** A world in which no sensor reads any bag and no button is pressed. *)
Definition quiet_world : World :=
  {| clock := clock world;
     button_states := λ _, (false, false, false);
     tag_reads := λ _ _, [];
     displayed := [] |}.

(** A game whose stored turn score of team A is 1 while no board was
    recorded as played; the buttons were last read at 200 s. *)
Definition game_bags_removed : Game.t :=
  Game.set_team_a_turn_score 1
    (Game.set_time_of_last_button_read 200 (game [] [] [] [])).

(** The world of [world] in which the button callback reports the quit
    signal and no board button. *)
Definition quitting_world : World :=
  {| clock := clock world;
     button_states := λ _, (false, false, true);
     tag_reads := tag_reads world;
     displayed := [] |}.

End Sample.

(** * Properties *)

Import Game.

(** Unfolding the monadic plumbing down to plain terms. *)
Ltac run :=
  cbv [get_event get_event_buttons get_event_sensors get_event_timeout
       read_buttons read_sensors current_turn_duration_in_seconds
       end_turn new_game display process_turn_over_state
       this assign call answer modify get mbind mret State_bind State_ret
       time_time call_button_state call_display fst snd].

(** ** Turn and game scores *)

(** C2.  After [end_turn] both turn scores are 0 and the turn number is one
    more.  With margin = A's turn score - B's turn score before the call: if
    the margin is positive, A's game score grew by the margin and B's is
    unchanged; otherwise (a tie included) B's game score grew by the absolute
    margin and A's is unchanged.  At most one game score differs from
    before. *)
Theorem end_turn_effect (g : Game.t) (w : World) :
  let g' := fst (snd (end_turn (g, w))) in
  let margin := team_a_turn_score g - team_b_turn_score g in
  team_a_turn_score g' = 0 ∧ team_b_turn_score g' = 0 ∧
  turn_number g' = turn_number g + 1 ∧
  (if decide (0 < margin)
   then team_a_game_score g' = team_a_game_score g + margin
        ∧ team_b_game_score g' = team_b_game_score g
   else team_b_game_score g' = team_b_game_score g + Z.abs margin
        ∧ team_a_game_score g' = team_a_game_score g) ∧
  (team_a_game_score g' = team_a_game_score g
   ∨ team_b_game_score g' = team_b_game_score g).
Proof.
  run. destruct (decide (0 < team_a_turn_score g - team_b_turn_score g));
    simpl; repeat split; auto.
Qed.

(** C3.  [have_reached_winning_score] holds exactly when the total score of
    A or of B is at least 21; a team's total score is its game score plus
    the positive part of its turn margin, so a team that is not ahead in the
    turn has its game score as total whatever its turn score is. *)
Theorem winning_score_threshold (g : Game.t) :
  (have_reached_winning_score g = true
     ↔ 21 ≤ total_score g Team.A ∨ 21 ≤ total_score g Team.B) ∧
  total_score g Team.A
    = team_a_game_score g + Z.max 0 (team_a_turn_score g - team_b_turn_score g) ∧
  total_score g Team.B
    = team_b_game_score g + Z.max 0 (team_b_turn_score g - team_a_turn_score g) ∧
  total_score g Team.A
    = (if decide (team_a_turn_score g ≤ team_b_turn_score g)
       then team_a_game_score g
       else team_a_game_score g + (team_a_turn_score g - team_b_turn_score g)) ∧
  total_score g Team.B
    = (if decide (team_b_turn_score g ≤ team_a_turn_score g)
       then team_b_game_score g
       else team_b_game_score g + (team_b_turn_score g - team_a_turn_score g)).
Proof.
  split; [|unfold total_score; simpl; repeat split; try case_decide; lia].
  unfold have_reached_winning_score.
  rewrite orb_true_iff, !bool_decide_eq_true. reflexivity.
Qed.

(** ** The TURN_OVER handler *)

(** C8.  When the board 1 tallies of A and B add up to 0 under the cached
    readings, the TURN_OVER handler answers BOARD_CLEAR for every event, and
    changes neither the game nor the world. *)
Theorem turn_over_clear_boards (g : Game.t) (w : World) (event : GameEvent.t) :
  tally_turn_board_1 g Team.A + tally_turn_board_1 g Team.B = 0 →
  process_turn_over_state event (g, w) = (GameState.BOARD_CLEAR, (g, w)).
Proof.
  intros Hclear. run. unfold are_boards_clear.
  rewrite bool_decide_eq_true_2 by lia. reflexivity.
Qed.

(** With bags read on board 2 only, the handler answers BOARD_CLEAR on a
    timeout. *)
Lemma turn_over_clear_boards_witness :
  tally_turn_board_1 (Sample.game [] [] ["A1"] ["B1"]) Team.A
    + tally_turn_board_1 (Sample.game [] [] ["A1"] ["B1"]) Team.B = 0
  ∧ process_turn_over_state GameEvent.TIMEOUT
      (Sample.game [] [] ["A1"] ["B1"], Sample.world)
    = (GameState.BOARD_CLEAR, (Sample.game [] [] ["A1"] ["B1"], Sample.world)).
Proof.
  split; [vm_compute; reflexivity|].
  apply turn_over_clear_boards. vm_compute. reflexivity.
Defined.

(** ** The event reader *)

Lemma Qlt_bool_iff (x y : Q) : Qlt_bool x y = true ↔ (x < y)%Q.
Proof.
  unfold Qlt_bool. rewrite negb_true_iff.
  destruct (Qle_bool y x) eqn:E.
  - apply Qle_bool_iff in E. split; [discriminate | intros H; exfalso; lra].
  - split; [intros _ | reflexivity].
    destruct (Qlt_le_dec x y) as [|Hle]; [assumption|].
    apply Qle_bool_iff in Hle. congruence.
Qed.

(** [get_event] as the sequence of its three parts. *)
Lemma get_event_parts (g : Game.t) (w : World) :
  get_event (g, w) =
    let '(pressed, s) := get_event_buttons (clock w 0) (g, (time_time w).2) in
    match pressed with
    | Some event => (event, s)
    | None =>
        let '(changed, s) := get_event_sensors (clock w 0) s in
        match changed with
        | Some event => (event, s)
        | None => get_event_timeout s
        end
    end.
Proof.
  unfold get_event, mbind, State_bind, call, answer, mret, State_ret. simpl.
  destruct (get_event_buttons _ _) as [[event|] s]; [reflexivity|].
  destruct (get_event_sensors _ _) as [[event|] s']; reflexivity.
Qed.

Lemma get_event_buttons_debounced now (g : Game.t) (w : World) :
  (clock w 0 - time_of_turn_start g <= 4)%Q →
  (get_event_buttons now (g, w)).1 = None.
Proof.
  intros Hturn.
  assert (Qlt_bool 4 (clock w 0 - time_of_turn_start g) = false) as Hskip.
  { destruct (Qlt_bool _ _) eqn:E; [apply Qlt_bool_iff in E; lra | reflexivity]. }
  run. simpl. rewrite Hskip. reflexivity.
Qed.

Lemma get_event_sensors_events now s :
  (get_event_sensors now s).1 ≠ Some GameEvent.BUTTON_PRESSED.
Proof.
  destruct s as [g w]. run. simpl.
  destruct (Qle_bool _ _); simpl; [|discriminate].
  destruct (read_each (sensors g) w) as [ss w1]. simpl.
  repeat case_decide; simpl; discriminate.
Qed.

Lemma get_event_timeout_events s :
  (get_event_timeout s).1 ≠ GameEvent.BUTTON_PRESSED.
Proof.
  destruct s as [g w]. run. simpl. destruct (Qle_bool _ _); simpl; discriminate.
Qed.

(** C6.  When the turn has lasted more than 4 s at the debounce test, the
    button poll interval has elapsed at [now], and the button callback
    reports board 1 or board 2 pressed, [get_event] answers BUTTON_PRESSED:
    the sensors are not even consulted, so this holds whether or not the
    sensor poll is due and whatever the sensors would read. *)
Theorem button_press_precedes_tag_change (g : Game.t) (w : World) :
  (4 < clock w 1 - time_of_turn_start g)%Q →
  (button_polling_interval_in_seconds g <= clock w 0 - time_of_last_button_read g)%Q →
  (button_states w 0).1.1 = true ∨ (button_states w 0).1.2 = true →
  (get_event (g, w)).1 = GameEvent.BUTTON_PRESSED.
Proof.
  intros Hturn%Qlt_bool_iff Hdue%Qle_bool_iff Hpressed. rewrite get_event_parts.
  run. simpl. rewrite Hturn, Hdue. simpl.
  destruct (button_states w 0) as [[board_1 board_2] quit_signal]. simpl in *.
  destruct Hpressed as [-> | ->]; simpl; [|rewrite orb_true_r]; reflexivity.
Qed.

(** At 100 s, the turn having started at 0 s and the button last read at
    3 s, with the board 1 button held down. *)
Lemma button_press_precedes_tag_change_witness :
  (4 < clock Sample.world 1 - time_of_turn_start (Sample.game [] [] [] []))%Q
  ∧ (get_event (Sample.game [] [] [] [], Sample.world)).1 = GameEvent.BUTTON_PRESSED.
Proof.
  split; [vm_compute; reflexivity|].
  apply button_press_precedes_tag_change.
  - vm_compute. reflexivity.
  - vm_compute. discriminate.
  - left. reflexivity.
Defined.

(** In the same state and world with the buttons not due (last read at
    200 s), the sensors are due and bag A1 appears on board 1: the event is
    the tag change. *)
Example tag_change_when_buttons_not_due :
  (get_event (set_time_of_last_button_read 200 (Sample.game [] [] [] []), Sample.world)).1
  = GameEvent.TAGS_CHANGED_ON_BOARD_1.
Proof. vm_compute. reflexivity. Qed.

(** C7.  When the turn has lasted at most 4 s at the debounce test,
    [get_event] does not answer BUTTON_PRESSED, whatever the timestamps and
    the button callback say. *)
Theorem button_debounce (g : Game.t) (w : World) :
  (clock w 1 - time_of_turn_start g <= 4)%Q →
  (get_event (g, w)).1 ≠ GameEvent.BUTTON_PRESSED.
Proof.
  intros Hturn. rewrite get_event_parts.
  pose proof (get_event_buttons_debounced (clock w 0) g (time_time w).2 Hturn) as Hb.
  destruct (get_event_buttons _ _) as [pressed s]. simpl in Hb. subst pressed.
  pose proof (get_event_sensors_events (clock w 0) s) as Hs.
  destruct (get_event_sensors _ _) as [[event|] s']; simpl in *.
  - congruence.
  - apply get_event_timeout_events.
Qed.

(** At 101 s, 3 s into the turn, with the board 1 button held down. *)
Lemma button_debounce_witness :
  (clock Sample.world 1 - time_of_turn_start Sample.game_just_started <= 4)%Q
  ∧ (get_event (Sample.game_just_started, Sample.world)).1 ≠ GameEvent.BUTTON_PRESSED.
Proof.
  split; [vm_compute; discriminate|].
  apply button_debounce. vm_compute. discriminate.
Defined.

(** *** What the event reader leaves alone *)

Lemma event_frame_refl g : event_frame g g.
Proof. split; reflexivity. Qed.

Lemma event_frame_trans g1 g2 g3 :
  event_frame g1 g2 → event_frame g2 g3 → event_frame g1 g3.
Proof. intros [] []. split; congruence. Qed.

Lemma read_each_fixed (ss : list Sensor.t) (w : World) :
  Sensor_fixed <$> (read_each ss w).1 = Sensor_fixed <$> ss.
Proof.
  revert w. induction ss as [|s ss IH]; intros w; simpl; [reflexivity|].
  specialize (IH (call_read_tags (Sensor.id s) w).2). simpl in IH.
  destruct (read_each ss _) as [rest w2]. simpl in *.
  f_equal. exact IH.
Qed.

Lemma get_event_buttons_frame now s :
  event_frame s.1 (get_event_buttons now s).2.1.
Proof.
  destruct s as [g w]. run. simpl.
  destruct (_ && _); simpl; [|apply event_frame_refl].
  destruct (button_states w 0) as [[[] []] []]; simpl; split; reflexivity.
Qed.

Lemma get_event_sensors_frame now s :
  event_frame s.1 (get_event_sensors now s).2.1.
Proof.
  destruct s as [g w]. run. simpl.
  destruct (Qle_bool _ _); simpl; [|apply event_frame_refl].
  pose proof (read_each_fixed (sensors g) w) as Hfixed.
  destruct (read_each (sensors g) w) as [ss w1]. simpl in *.
  repeat case_decide; simpl; split; simpl; auto.
Qed.

Lemma get_event_timeout_frame s : (get_event_timeout s).2.1 = s.1.
Proof.
  destruct s as [g w]. run. simpl. destruct (Qle_bool _ _); reflexivity.
Qed.

Lemma get_event_event_frame (g : Game.t) (w : World) :
  event_frame g (get_event (g, w)).2.1.
Proof.
  rewrite get_event_parts.
  pose proof (get_event_buttons_frame (clock w 0) (g, (time_time w).2)) as Hb.
  destruct (get_event_buttons _ _) as [pressed s]. simpl in Hb.
  destruct pressed as [event|]; [exact Hb|].
  pose proof (get_event_sensors_frame (clock w 0) s) as Hs.
  destruct (get_event_sensors _ _) as [changed s']. simpl in Hs.
  destruct changed as [event|]; simpl.
  - eapply event_frame_trans; eassumption.
  - rewrite get_event_timeout_frame. eapply event_frame_trans; eassumption.
Qed.

(** C9.  Whatever event it answers, [get_event] leaves both game scores,
    both turn scores, the turn number, the start time of the turn and the
    current state as they were; beyond these, every attribute other than
    [time_of_last_button_read], [time_of_last_sensor_read] and
    [last_board_played] is unchanged too, and the sensors keep their id,
    weight, location and points (only their cached readings are renewed). *)
Theorem get_event_leaves_scores_and_state (g : Game.t) (w : World) :
  let g' := (get_event (g, w)).2.1 in
  team_a_game_score g' = team_a_game_score g ∧
  team_b_game_score g' = team_b_game_score g ∧
  team_a_turn_score g' = team_a_turn_score g ∧
  team_b_turn_score g' = team_b_turn_score g ∧
  turn_number g' = turn_number g ∧
  time_of_turn_start g' = time_of_turn_start g ∧
  state g' = state g ∧
  event_frame g g'.
Proof.
  pose proof (get_event_event_frame g w) as H. simpl.
  destruct H. repeat split; assumption.
Qed.

(** ** The tally engine *)

Section Tally.
Context (g : Game.t) (team : Team.t).

Lemma get_tag_by_id_Some (rfid : string) (tag : Tag.t) :
  get_tag_by_id g rfid = Some tag → Tag.rfid tag = rfid ∧ tag ∈ tags g.
Proof.
  intros Hhead%head_Some_elem_of. apply list_elem_of_filter in Hhead.
  exact Hhead.
Qed.

Lemma get_tag_by_id_None (rfid : string) (tag : Tag.t) :
  get_tag_by_id g rfid = None → tag ∈ tags g → Tag.rfid tag ≠ rfid.
Proof.
  intros Hnone%head_None Hin Heq.
  assert (tag ∈ filter (λ tag, Tag.rfid tag = rfid) (tags g)) as Hf
    by (apply list_elem_of_filter; auto).
  rewrite Hnone in Hf. inversion Hf.
Qed.

(** The guard of the inner loop accepts exactly the rfids of the team. *)
Lemma tally_rfid_guard (sensor : Sensor.t) (acc : Tally) (rfid : string) :
  tally_rfid g (list_to_set (Tag.rfid <$> get_tags_for_team g team)) sensor acc rfid
  = if is_team_tag g team rfid then count_hit g sensor rfid acc else acc.
Proof.
  unfold tally_rfid, is_team_tag.
  destruct (get_tag_by_id g rfid) as [tag|] eqn:Htag.
  - apply get_tag_by_id_Some in Htag as [-> _].
    case_decide as Hset; case_bool_decide as Hlist; try reflexivity; exfalso.
    + apply Hlist. apply elem_of_list_to_set in Hset. exact Hset.
    + apply Hset. apply elem_of_list_to_set. exact Hlist.
  - case_bool_decide as Hin; [|reflexivity]. exfalso.
    apply list_elem_of_fmap in Hin as (tag & -> & Hin).
    apply list_elem_of_filter in Hin as [_ Hin].
    exact (get_tag_by_id_None _ tag Htag Hin eq_refl).
Qed.

Lemma inner_loop_hits (sensor : Sensor.t) (acc : Tally) :
  foldl (tally_rfid g (list_to_set (Tag.rfid <$> get_tags_for_team g team)) sensor)
        acc (Sensor.latest_reading sensor)
  = foldl (apply_hit g) acc (sensor_hits g team sensor).
Proof.
  unfold sensor_hits. generalize (Sensor.latest_reading sensor) as reading.
  intros reading. revert acc.
  induction reading as [|rfid reading IH]; intros acc; [reflexivity|].
  simpl. rewrite tally_rfid_guard, IH, filter_cons.
  destruct (is_team_tag g team rfid) eqn:E; case_decide; try congruence; reflexivity.
Qed.

Lemma tally_loops_hits (location : Location.t) :
  tally_loops g team location = foldl (apply_hit g) empty_tally (location_hits g team location).
Proof.
  unfold tally_loops, location_hits.
  generalize (get_sensors_for_location g location) as ss. intros ss.
  generalize empty_tally as acc.
  induction ss as [|s ss IH]; intros acc; [reflexivity|].
  simpl. rewrite IH, inner_loop_hits, foldl_app. reflexivity.
Qed.

(** *** What the accumulators hold after a list of hits *)

Lemma points_seen_nonneg (rfid : string) (hits : list (string * Sensor.t)) :
  0 ≤ points_seen rfid hits.
Proof.
  induction hits as [|hit hits IH]; simpl; [lia|]. case_decide; lia.
Qed.

Lemma points_seen_app (rfid : string) (l k : list (string * Sensor.t)) :
  points_seen rfid (l ++ k) = Z.max (points_seen rfid l) (points_seen rfid k).
Proof.
  pose proof (points_seen_nonneg rfid k).
  induction l as [|hit l IH]; simpl; [lia|]. case_decide; lia.
Qed.

Lemma weight_seen_app (rfid : string) (l k : list (string * Sensor.t)) :
  (weight_seen rfid (l ++ k) == weight_seen rfid l + weight_seen rfid k)%Q.
Proof.
  induction l as [|hit l IH]; simpl; [lra|]. case_decide; lra.
Qed.

Lemma max_score_after_hits (hits : list (string * Sensor.t)) (rfid : string) :
  default 0 (max_score_per_tag (foldl (apply_hit g) empty_tally hits) !! rfid)
  = points_seen rfid hits.
Proof.
  induction hits as [|[key sensor] hits IH] using rev_ind; [reflexivity|].
  rewrite foldl_snoc, points_seen_app. simpl.
  pose proof (points_seen_nonneg rfid hits).
  destruct (decide (key = rfid)) as [->|Hne].
  - rewrite lookup_insert_eq. simpl. rewrite IH. lia.
  - rewrite lookup_insert_ne by exact Hne. rewrite IH. lia.
Qed.

Lemma hits_after_hits (hits : list (string * Sensor.t)) (rfid : string) :
  (default 0 (hits_per_tag (foldl (apply_hit g) empty_tally hits) !! rfid)
   == weight_seen rfid hits)%Q.
Proof.
  induction hits as [|[key sensor] hits IH] using rev_ind; [reflexivity|].
  rewrite foldl_snoc, weight_seen_app. simpl.
  destruct (decide (key = rfid)) as [->|Hne].
  - rewrite lookup_insert_eq. simpl. rewrite IH. lra.
  - rewrite lookup_insert_ne by exact Hne. rewrite IH. lra.
Qed.

Lemma verified_after_hits (hits : list (string * Sensor.t)) (rfid : string) :
  Forall (λ hit, 0 <= Sensor.weight hit.2)%Q hits →
  rfid ∈ verified_tags (foldl (apply_hit g) empty_tally hits)
  ↔ rfid ∈ hits.*1 ∧ (minimum_sensor_weight g <= weight_seen rfid hits)%Q.
Proof.
  induction hits as [|[key sensor] hits IH] using rev_ind; intros Hweights.
  { simpl. split; [intros Hin|intros [Hin _]]; inversion Hin. }
  apply Forall_app in Hweights as [Hweights Hweight].
  rewrite Forall_singleton in Hweight. simpl in Hweight.
  specialize (IH Hweights).
  rewrite foldl_snoc, fmap_app, elem_of_app, weight_seen_app. simpl.
  rewrite lookup_insert_eq. simpl.
  pose proof (hits_after_hits hits key) as Hsum.
  set (acc := foldl (apply_hit g) empty_tally hits) in *.
  destruct (decide (key = rfid)) as [->|Hne].
  - destruct (Qle_bool _ _) eqn:Hle.
    + apply Qle_bool_iff in Hle. rewrite Hsum in Hle.
      split; [intros _|intros _; apply elem_of_union_l, elem_of_singleton; reflexivity].
      split; [right; apply list_elem_of_singleton; reflexivity | lra].
    + assert (¬ (minimum_sensor_weight g <= weight_seen rfid hits + Sensor.weight sensor)%Q)
        as Hbelow.
      { intros Hle'. rewrite <- Hsum in Hle'. apply Qle_bool_iff in Hle'. congruence. }
      rewrite IH. split; [intros [_ Hge]; exfalso; apply Hbelow; lra|].
      intros [_ Hge]. exfalso. apply Hbelow. lra.
  - assert (rfid ∈ (if Qle_bool (minimum_sensor_weight g)
                         (default 0 (hits_per_tag acc !! key) + Sensor.weight sensor)%Q
                    then {[key]} ∪ verified_tags acc else verified_tags acc)
            ↔ rfid ∈ verified_tags acc) as ->.
    { destruct (Qle_bool _ _); [|reflexivity].
      rewrite elem_of_union, elem_of_singleton. intuition congruence. }
    rewrite IH. 
    assert (rfid ∈ hits.*1 ∨ rfid ∈ [key] ↔ rfid ∈ hits.*1) as ->.
    { rewrite list_elem_of_singleton. intuition congruence. }
    assert (weight_seen rfid hits + 0 == weight_seen rfid hits)%Q as -> by lra.
    reflexivity.
Qed.

(** *** From hits to sensors *)

Lemma sensor_hits_rfids (sensor : Sensor.t) (rfid : string) :
  rfid ∈ (sensor_hits g team sensor).*1
  ↔ is_team_tag g team rfid = true ∧ rfid ∈ Sensor.latest_reading sensor.
Proof.
  unfold sensor_hits. split.
  - intros (hit & -> & Hin)%list_elem_of_fmap.
    apply list_elem_of_fmap in Hin as (r & -> & Hin). simpl.
    apply list_elem_of_filter in Hin. exact Hin.
  - intros [Hteam Hin]. apply list_elem_of_fmap. exists (rfid, sensor).
    split; [reflexivity|]. apply list_elem_of_fmap. exists rfid.
    split; [reflexivity|]. apply list_elem_of_filter. split; assumption.
Qed.

Lemma weight_seen_sensor_hits (sensor : Sensor.t) (rfid : string) :
  (weight_seen rfid (sensor_hits g team sensor)
   == if is_team_tag g team rfid
      then inject_Z (Z.of_nat (occurrences rfid sensor)) * Sensor.weight sensor
      else 0)%Q.
Proof.
  unfold sensor_hits, occurrences.
  induction (Sensor.latest_reading sensor) as [|r reading IH]; simpl.
  { destruct (is_team_tag g team rfid); [change (inject_Z 0) with 0%Q; ring | reflexivity]. }
  rewrite !filter_cons.
  destruct (decide (r = rfid)) as [->|Hne].
  - destruct (is_team_tag g team rfid) eqn:Hteam.
    + rewrite decide_True by reflexivity. simpl.
      rewrite decide_True by reflexivity.
      rewrite IH. cbn [length]. rewrite Nat2Z.inj_succ, <- Z.add_1_r, inject_Z_plus.
      change (inject_Z 1) with 1%Q. ring.
    + rewrite decide_False by congruence. exact IH.
  - case_decide; simpl; [rewrite decide_False by exact Hne|]; exact IH.
Qed.

Lemma points_seen_cons (rfid : string) hit (hits : list (string * Sensor.t)) :
  points_seen rfid (hit :: hits)
  = if decide (hit.1 = rfid)
    then Z.max (Sensor.points_to_award hit.2) (points_seen rfid hits)
    else points_seen rfid hits.
Proof. reflexivity. Qed.

Lemma points_seen_sensor_hits (sensor : Sensor.t) (rfid : string) :
  points_seen rfid (sensor_hits g team sensor)
  = if is_team_tag g team rfid && bool_decide (rfid ∈ Sensor.latest_reading sensor)
    then Z.max (Sensor.points_to_award sensor) 0
    else 0.
Proof.
  unfold sensor_hits.
  induction (Sensor.latest_reading sensor) as [|r reading IH].
  { rewrite andb_false_r. reflexivity. }
  rewrite filter_cons.
  destruct (decide (r = rfid)) as [->|Hne].
  - rewrite (bool_decide_eq_true_2 (rfid ∈ rfid :: reading)) by left.
    destruct (is_team_tag g team rfid) eqn:Hteam.
    + rewrite decide_True by reflexivity.
      rewrite fmap_cons, points_seen_cons, IH. simpl.
      rewrite decide_True by reflexivity. case_bool_decide; lia.
    + rewrite decide_False by congruence. rewrite IH. reflexivity.
  - assert (bool_decide (rfid ∈ r :: reading) = bool_decide (rfid ∈ reading)) as ->.
    { apply bool_decide_ext. rewrite elem_of_cons. intuition congruence. }
    destruct (decide (is_team_tag g team r = true)); [|exact IH].
    rewrite fmap_cons, points_seen_cons, IH. simpl.
    rewrite decide_False by exact Hne. reflexivity.
Qed.

Lemma location_hits_rfids (location : Location.t) (rfid : string) :
  rfid ∈ (location_hits g team location).*1
  ↔ is_team_tag g team rfid = true ∧ rfid ∈ rfids_read g location.
Proof.
  unfold location_hits, rfids_read.
  induction (get_sensors_for_location g location) as [|s ss IH].
  { simpl. split; [intros Hin|intros [_ Hin]]; inversion Hin. }
  rewrite !bind_cons, fmap_app, !elem_of_app, IH, sensor_hits_rfids. tauto.
Qed.

Lemma weight_seen_location_hits (location : Location.t) (rfid : string) :
  (weight_seen rfid (location_hits g team location)
   == if is_team_tag g team rfid then occurrence_weight g location rfid else 0)%Q.
Proof.
  unfold location_hits, occurrence_weight.
  induction (get_sensors_for_location g location) as [|s ss IH]; simpl.
  { destruct (is_team_tag g team rfid); reflexivity. }
  rewrite weight_seen_app, IH, weight_seen_sensor_hits.
  destruct (is_team_tag g team rfid); lra.
Qed.

Lemma max_points_nonneg (l : list Sensor.t) :
  0 ≤ foldr (λ sensor best, Z.max (Sensor.points_to_award sensor) best) 0 l.
Proof. induction l; simpl; lia. Qed.

Lemma points_seen_location_hits (location : Location.t) (rfid : string) :
  points_seen rfid (location_hits g team location)
  = if is_team_tag g team rfid then best_points g location rfid else 0.
Proof.
  unfold location_hits, best_points, readers.
  induction (get_sensors_for_location g location) as [|s ss IH].
  { destruct (is_team_tag g team rfid); reflexivity. }
  rewrite bind_cons, points_seen_app, IH, points_seen_sensor_hits, filter_cons.
  destruct (is_team_tag g team rfid); simpl; [|reflexivity].
  assert (0 ≤ foldr (λ sensor best, Z.max (Sensor.points_to_award sensor) best) 0
                (filter (λ sensor, rfid ∈ Sensor.latest_reading sensor) ss)) as Hnonneg.
  { apply max_points_nonneg. }
  case_bool_decide as Hread.
  - rewrite decide_True by exact Hread. simpl. lia.
  - rewrite decide_False by exact Hread. lia.
Qed.

Lemma location_hits_weights (location : Location.t) :
  (∀ sensor, sensor ∈ get_sensors_for_location g location → (0 <= Sensor.weight sensor)%Q) →
  Forall (λ hit, 0 <= Sensor.weight hit.2)%Q (location_hits g team location).
Proof.
  intros Hweights. unfold location_hits. apply Forall_forall. intros [rfid sensor] Hin.
  apply list_elem_of_bind in Hin as (s & Hin & Hs).
  unfold sensor_hits in Hin. apply list_elem_of_fmap in Hin as (r & [= -> ->] & _).
  simpl. apply Hweights, Hs.
Qed.

Lemma verified_were_hit (hits : list (string * Sensor.t)) (rfid : string) :
  rfid ∈ verified_tags (foldl (apply_hit g) empty_tally hits) → rfid ∈ hits.*1.
Proof.
  induction hits as [|[key sensor] hits IH] using rev_ind.
  { intros Hin. inversion Hin. }
  rewrite foldl_snoc, fmap_app, elem_of_app. simpl.
  destruct (Qle_bool _ _); [|auto].
  rewrite elem_of_union, elem_of_singleton, list_elem_of_singleton. intuition.
Qed.

(** *** The tally of a location *)

Lemma fold_sum (points : string → Z) (rfids : list string) (start : Z) :
  foldl (λ tally rfid, tally + points rfid) start rfids
  = start + foldr (λ rfid total, points rfid + total) 0 rfids.
Proof.
  revert start. induction rfids as [|r rfids IH]; intros start; simpl; [lia|].
  rewrite IH. lia.
Qed.

Lemma sum_points_ext (points points' : string → Z) (rfids : gset string) :
  (∀ rfid, rfid ∈ rfids → points rfid = points' rfid) →
  sum_points points rfids = sum_points points' rfids.
Proof.
  intros Hext. unfold sum_points.
  assert (∀ rfid, rfid ∈ elements rfids → points rfid = points' rfid) as Hl.
  { intros rfid Hin. apply Hext, elem_of_elements, Hin. }
  induction (elements rfids) as [|r l IH]; simpl; [reflexivity|].
  rewrite (Hl r) by left. rewrite IH; [reflexivity|].
  intros rfid Hin. apply Hl. right. exact Hin.
Qed.

(** The result is the sum, over the verified tags, of the best points of
    each. *)
Lemma tally_location_verified (location : Location.t) :
  tally_location g team location
  = sum_points (best_points g location) (verified_tags (tally_loops g team location)).
Proof.
  unfold tally_location. rewrite fold_sum, Z.add_0_l.
  apply (sum_points_ext (λ rfid, default 0 (max_score_per_tag _ !! rfid))).
  intros rfid Hin. rewrite tally_loops_hits in *.
  rewrite max_score_after_hits, points_seen_location_hits.
  apply verified_were_hit, location_hits_rfids in Hin as [-> _]. reflexivity.
Qed.

(** A tag is verified exactly when it is of the team, is read at the
    location, and its weight, each sensor counting once per occurrence of the
    rfid in its reading, reaches the threshold. *)
Lemma verified_tags_occurrences (location : Location.t) :
  (∀ sensor, sensor ∈ get_sensors_for_location g location → (0 <= Sensor.weight sensor)%Q) →
  verified_tags (tally_loops g team location) = credited occurrence_weight g team location.
Proof.
  intros Hweights. apply set_eq. intros rfid.
  rewrite tally_loops_hits, verified_after_hits by (apply location_hits_weights, Hweights).
  rewrite location_hits_rfids, weight_seen_location_hits.
  unfold credited. rewrite elem_of_list_to_set, list_elem_of_filter, andb_true_iff.
  rewrite Qle_bool_iff.
  destruct (is_team_tag g team rfid); intuition congruence.
Qed.

(** When no reading lists an rfid twice, counting per occurrence is counting
    per sensor. *)
Lemma occurrences_NoDup (sensor : Sensor.t) (rfid : string) :
  NoDup (Sensor.latest_reading sensor) →
  occurrences rfid sensor
  = if decide (rfid ∈ Sensor.latest_reading sensor) then 1%nat else 0%nat.
Proof.
  unfold occurrences.
  induction (Sensor.latest_reading sensor) as [|r reading IH]; intros Hnodup.
  { reflexivity. }
  apply NoDup_cons in Hnodup as [Hfresh Hnodup]. specialize (IH Hnodup).
  rewrite filter_cons. destruct (decide (r = rfid)) as [->|Hne].
  - rewrite decide_True by left. simpl. rewrite IH.
    rewrite decide_False by exact Hfresh. reflexivity.
  - rewrite IH. apply decide_ext. rewrite elem_of_cons. intuition congruence.
Qed.

Lemma occurrence_weight_NoDup (location : Location.t) (rfid : string) :
  (∀ sensor, sensor ∈ get_sensors_for_location g location →
             NoDup (Sensor.latest_reading sensor)) →
  (occurrence_weight g location rfid == accumulated_weight g location rfid)%Q.
Proof.
  unfold occurrence_weight, accumulated_weight, readers.
  induction (get_sensors_for_location g location) as [|s ss IH]; intros Hnodup.
  { reflexivity. }
  cbn [foldr]. rewrite filter_cons, IH by (intros; apply Hnodup; right; assumption).
  rewrite occurrences_NoDup by (apply Hnodup; left).
  case_decide; cbn [foldr].
  - change (inject_Z (Z.of_nat 1)) with 1%Q. ring.
  - change (inject_Z (Z.of_nat 0)) with 0%Q. ring.
Qed.

End Tally.

Lemma credited_NoDup (g : Game.t) (team : Team.t) (location : Location.t) :
  (∀ sensor, sensor ∈ get_sensors_for_location g location →
             NoDup (Sensor.latest_reading sensor)) →
  credited occurrence_weight g team location = credited accumulated_weight g team location.
Proof.
  intros Hnodup. unfold credited. f_equal. apply list_filter_iff. intros rfid.
  rewrite (occurrence_weight_NoDup g location rfid Hnodup). reflexivity.
Qed.

Lemma max_points_maximum (l : list Sensor.t) :
  l ≠ [] →
  (∀ sensor, sensor ∈ l → 0 ≤ Sensor.points_to_award sensor) →
  let best := foldr (λ sensor best, Z.max (Sensor.points_to_award sensor) best) 0 l in
  (∃ sensor, sensor ∈ l ∧ Sensor.points_to_award sensor = best)
  ∧ (∀ sensor, sensor ∈ l → Sensor.points_to_award sensor ≤ best).
Proof.
  induction l as [|s l IH]; [congruence|]. intros _ Hpoints. cbn [foldr].
  destruct l as [|s' l'].
  - simpl. pose proof (Hpoints s ltac:(left)). split.
    + exists s. split; [left|lia].
    + intros sensor ->%list_elem_of_singleton. lia.
  - destruct IH as [(best & Hin & Hbest) Hle];
      [discriminate | intros; apply Hpoints; right; assumption |].
    set (rest := foldr _ 0 (s' :: l')) in *. split.
    + destruct (Z.max_spec (Sensor.points_to_award s) rest) as [[_ ->]|[_ ->]].
      * exists best. split; [right; assumption | assumption].
      * exists s. split; [left | reflexivity].
    + intros sensor [->|Hin']%elem_of_cons; [lia|].
      specialize (Hle sensor Hin'). lia.
Qed.

(** The description of the tally holds on readings that list no rfid
    twice, for sensors of non-negative weight: [tally_location] verifies
    exactly the tags of the team read at the location whose readers' weights
    add up to the threshold or more, and its result is the sum over these tags
    of the best points among the readers of each; for non-negative points
    the best points of a verified tag is the largest [points_to_award] of its
    readers. *)
Theorem tally_location_distinct_reads (g : Game.t) (team : Team.t) (location : Location.t) :
  (∀ sensor, sensor ∈ get_sensors_for_location g location →
             NoDup (Sensor.latest_reading sensor)
             ∧ (0 <= Sensor.weight sensor)%Q
             ∧ 0 ≤ Sensor.points_to_award sensor) →
  verified_tags (tally_loops g team location) = credited accumulated_weight g team location
  ∧ tally_location g team location
    = sum_points (best_points g location) (credited accumulated_weight g team location)
  ∧ (∀ rfid, rfid ∈ credited accumulated_weight g team location →
       (∃ sensor, sensor ∈ readers g location rfid
                  ∧ Sensor.points_to_award sensor = best_points g location rfid)
       ∧ (∀ sensor, sensor ∈ readers g location rfid →
                    Sensor.points_to_award sensor ≤ best_points g location rfid)).
Proof.
  intros Hsensors.
  assert (verified_tags (tally_loops g team location)
          = credited accumulated_weight g team location) as Hverified.
  { rewrite verified_tags_occurrences by (intros; apply Hsensors; assumption).
    apply credited_NoDup. intros; apply Hsensors; assumption. }
  split; [exact Hverified|]. split.
  { rewrite tally_location_verified, Hverified. reflexivity. }
  intros rfid Hin. unfold credited in Hin.
  apply elem_of_list_to_set, list_elem_of_filter in Hin as [_ Hread].
  apply list_elem_of_bind in Hread as (sensor & Hread & Hsensor).
  apply max_points_maximum.
  - intros Hnil.
    assert (sensor ∈ readers g location rfid) as Hreader
      by (apply list_elem_of_filter; split; assumption).
    rewrite Hnil in Hreader. inversion Hreader.
  - intros s [_ Hs]%list_elem_of_filter. apply Hsensors, Hs.
Qed.

Lemma tally_location_distinct_reads_witness :
  tally_location (Sample.game ["A1"; "B1"] ["A1"; "A2"] [] []) Team.A Location.HOLE_1
  = sum_points (best_points (Sample.game ["A1"; "B1"] ["A1"; "A2"] [] []) Location.HOLE_1)
      (credited accumulated_weight (Sample.game ["A1"; "B1"] ["A1"; "A2"] [] [])
         Team.A Location.HOLE_1).
Proof.
  apply tally_location_distinct_reads.
  intros sensor Hin. vm_compute in Hin.
  apply list_elem_of_singleton in Hin as ->. simpl. split; [|split].
  - apply (bool_decide_unpack _). vm_compute. exact I.
  - unfold Qle; simpl; lia.
  - lia.
Defined.

(** C1, on a reading that lists an rfid twice.  One sensor of weight 1/2 on
    board 1 reads bag A1 of team A twice; the threshold is 1.  The only
    reader of A1 weighs 1/2, below the threshold, so by the description no
    tag is credited and the tally is 0; [tally_location] verifies A1 and
    answers 1. *)
Theorem tally_location_repeated_read :
  readers Sample.game_repeated_read Location.BOARD_1 "A1"
    = [Sensor.Build "TOP_1" 0.5 Location.BOARD_1 ["A1"; "A1"] 1]
  ∧ (accumulated_weight Sample.game_repeated_read Location.BOARD_1 "A1"
     < minimum_sensor_weight Sample.game_repeated_read)%Q
  ∧ credited accumulated_weight Sample.game_repeated_read Team.A Location.BOARD_1 = ∅
  ∧ sum_points (best_points Sample.game_repeated_read Location.BOARD_1)
      (credited accumulated_weight Sample.game_repeated_read Team.A Location.BOARD_1) = 0
  ∧ verified_tags (tally_loops Sample.game_repeated_read Team.A Location.BOARD_1)
    = {["A1"]}
  ∧ tally_location Sample.game_repeated_read Team.A Location.BOARD_1 = 1.
Proof.
  repeat split; vm_compute; reflexivity.
Qed.

(** ** Clear boards *)

Lemma tally_location_depends (g g' : Game.t) (team : Team.t) (location : Location.t) :
  tags g' = tags g →
  minimum_sensor_weight g' = minimum_sensor_weight g →
  get_sensors_for_location g' location = get_sensors_for_location g location →
  tally_location g' team location = tally_location g team location.
Proof.
  intros Htags Hmin Hsensors.
  unfold tally_location, tally_loops, get_tags_for_team.
  rewrite Hsensors, Htags.
  assert (∀ tags_for_team sensor acc rfid,
            tally_rfid g' tags_for_team sensor acc rfid
            = tally_rfid g tags_for_team sensor acc rfid) as Hrfid.
  { intros. unfold tally_rfid, get_tag_by_id, count_hit. rewrite Htags, Hmin. reflexivity. }
  assert (∀ tags_for_team ss acc,
            foldl (λ acc sensor, foldl (tally_rfid g' tags_for_team sensor) acc
                                   (Sensor.latest_reading sensor)) acc ss
            = foldl (λ acc sensor, foldl (tally_rfid g tags_for_team sensor) acc
                                     (Sensor.latest_reading sensor)) acc ss) as ->.
  { intros tft ss. induction ss as [|s ss IH]; intros acc; [reflexivity|].
    simpl. rewrite IH. f_equal.
    generalize (Sensor.latest_reading s) as reading. intros reading. revert acc.
    induction reading as [|r reading IHr]; intros acc; [reflexivity|].
    simpl. rewrite Hrfid. apply IHr. }
  reflexivity.
Qed.

Lemma with_board_2_readings_board_1 (reading : Sensor.t → list string) (g : Game.t)
    (location : Location.t) :
  location ≠ Location.BOARD_2 → location ≠ Location.HOLE_2 →
  get_sensors_for_location (with_board_2_readings reading g) location
  = get_sensors_for_location g location.
Proof.
  intros Hboard Hhole. unfold get_sensors_for_location, with_board_2_readings. simpl.
  induction (sensors g) as [|s ss IH]; [reflexivity|].
  rewrite fmap_cons, !filter_cons, IH.
  destruct (decide (Sensor.location s = Location.BOARD_2 ∨ _)) as [Hloc|Hloc].
  - simpl. rewrite !decide_False by (destruct Hloc; congruence). reflexivity.
  - reflexivity.
Qed.

(** C5.  [are_boards_clear] answers true exactly when the board 1 tallies of
    A and B add up to 0, and its answer stays the same when the cached
    readings of the sensors of board 2 (board and hole) are replaced by any
    others. *)
Theorem boards_clear_looks_at_board_1 (g : Game.t) (reading : Sensor.t → list string) :
  (are_boards_clear g = true
     ↔ tally_turn_board_1 g Team.A + tally_turn_board_1 g Team.B = 0)
  ∧ are_boards_clear (with_board_2_readings reading g) = are_boards_clear g.
Proof.
  split.
  - unfold are_boards_clear. rewrite bool_decide_eq_true. split; intros H; lia.
  - unfold are_boards_clear, tally_turn_board_1.
    rewrite !(tally_location_depends g (with_board_2_readings reading g))
      by (try reflexivity; apply with_board_2_readings_board_1; discriminate).
    reflexivity.
Qed.

(** ** Updating the turn scores *)

Lemma tally_turn_boards_depend (g g' : Game.t) (team : Team.t) :
  tags g' = tags g →
  minimum_sensor_weight g' = minimum_sensor_weight g →
  sensors g' = sensors g →
  tally_turn_board_1 g' team = tally_turn_board_1 g team
  ∧ tally_turn_board_2 g' team = tally_turn_board_2 g team.
Proof.
  intros Htags Hmin Hsensors. unfold tally_turn_board_1, tally_turn_board_2.
  rewrite !(tally_location_depends g g')
    by (try assumption; unfold get_sensors_for_location; rewrite Hsensors; reflexivity).
  split; reflexivity.
Qed.

(** What [update_turn_score] stores: the tallies of the board it is given,
    computed for both teams on the game as it was. *)
Lemma update_turn_score_stores (board_number : Z) (g : Game.t) :
  update_turn_score board_number g
  = set_last_board_played (if decide (board_number = 1) then 1 else 2)
      (set_team_b_turn_score (tally_turn_board board_number g Team.B)
         (set_team_a_turn_score (tally_turn_board board_number g Team.A) g)).
Proof.
  unfold update_turn_score, tally_turn_board. case_decide; simpl.
  - destruct (tally_turn_boards_depend g
      (set_team_a_turn_score (tally_turn_board_1 g Team.A) g) Team.B) as [-> _];
      reflexivity.
  - destruct (tally_turn_boards_depend g
      (set_team_a_turn_score (tally_turn_board_2 g Team.A) g) Team.B) as [_ ->];
      reflexivity.
Qed.

Lemma tally_turn_board_updated (board_number board_number' : Z) (g : Game.t)
    (team : Team.t) :
  tally_turn_board board_number' (update_turn_score board_number g) team
  = tally_turn_board board_number' g team.
Proof.
  rewrite update_turn_score_stores. set (g' := set_last_board_played _ _).
  destruct (tally_turn_boards_depend g g' team) as [Hboard_1 Hboard_2];
    [reflexivity..|].
  unfold tally_turn_board. rewrite Hboard_1, Hboard_2. reflexivity.
Qed.

(** C4, as stated, fails.  Bag A1 lies on board 1 and the turn scores were
    updated for board 1: A's total score is 1.  Updating for board 2, with
    the same cached readings, makes it 0.  Likewise when the stored turn
    score is 1 and the cached readings show the bag gone. *)
Lemma update_turn_score_lowers_total_score :
  (total_score (update_turn_score 1 (Sample.game ["A1"] [] [] [])) Team.A = 1
   ∧ total_score (update_turn_score 2 (update_turn_score 1 (Sample.game ["A1"] [] [] [])))
       Team.A = 0)
  ∧ (total_score (set_team_a_turn_score 1 (Sample.game [] [] [] [])) Team.A = 1
     ∧ total_score (update_turn_score 1 (set_team_a_turn_score 1 (Sample.game [] [] [] [])))
         Team.A = 0).
Proof. repeat split; vm_compute; reflexivity. Qed.

(** C4, amended.  [update_turn_score] changes neither game score; after it
    the total score of a team is its game score plus the positive part of
    the margin of the given board's tallies under the cached readings, hence
    at least its game score; and a second call with the same board number and
    the same cached readings leaves the total score of every team as the
    first call left it. *)
Theorem update_turn_score_total_score (board_number : Z) (g : Game.t) (team : Team.t) :
  let g' := update_turn_score board_number g in
  let tally := tally_turn_board board_number g in
  team_a_game_score g' = team_a_game_score g
  ∧ team_b_game_score g' = team_b_game_score g
  ∧ total_score g' Team.A = team_a_game_score g + Z.max 0 (tally Team.A - tally Team.B)
  ∧ total_score g' Team.B = team_b_game_score g + Z.max 0 (tally Team.B - tally Team.A)
  ∧ team_a_game_score g ≤ total_score g' Team.A
  ∧ team_b_game_score g ≤ total_score g' Team.B
  ∧ total_score (update_turn_score board_number g') team = total_score g' team.
Proof.
  cbv zeta.
  assert (∀ h, team_a_game_score (update_turn_score board_number h) = team_a_game_score h
             ∧ team_b_game_score (update_turn_score board_number h) = team_b_game_score h
             ∧ team_a_turn_score (update_turn_score board_number h)
               = tally_turn_board board_number h Team.A
             ∧ team_b_turn_score (update_turn_score board_number h)
               = tally_turn_board board_number h Team.B) as Hfields.
  { intros h. rewrite update_turn_score_stores. repeat split. }
  destruct (Hfields g) as (Ha & Hb & Hta & Htb).
  destruct (Hfields (update_turn_score board_number g)) as (Ha' & Hb' & Hta' & Htb').
  rewrite !tally_turn_board_updated in *.
  unfold total_score. simpl.
  rewrite Ha, Hb, Hta, Htb, Ha', Hb', Hta', Htb'.
  repeat split; try lia. case_decide; lia.
Qed.

(** * Further properties of the source *)

(** ** The tally engine: bounds and edge cases *)

Lemma sum_points_nonneg (points : string → Z) (rfids : gset string) :
  (∀ rfid, 0 ≤ points rfid) → 0 ≤ sum_points points rfids.
Proof.
  intros Hpoints. unfold sum_points.
  induction (elements rfids) as [|r l IH]; simpl; [lia|].
  specialize (Hpoints r). lia.
Qed.

Lemma sum_points_member (points : string → Z) (rfids : gset string) (rfid : string) :
  (∀ rfid, 0 ≤ points rfid) → rfid ∈ rfids → points rfid ≤ sum_points points rfids.
Proof.
  intros Hpoints Hin%elem_of_elements. unfold sum_points.
  induction (elements rfids) as [|r l IH]; [inversion Hin|].
  cbn [foldr]. assert (0 ≤ foldr (λ rfid total, points rfid + total) 0 l) as Hrest.
  { clear IH Hin. induction l as [|r' l IH]; simpl; [lia|].
    specialize (Hpoints r'). lia. }
  apply elem_of_cons in Hin as [->|Hin]; [lia|].
  specialize (IH Hin). specialize (Hpoints r). lia.
Qed.

Lemma best_points_nonneg (g : Game.t) (location : Location.t) (rfid : string) :
  0 ≤ best_points g location rfid.
Proof. apply max_points_nonneg. Qed.

(** X1.  [tally_location] never answers a negative number, whatever the
    points of the sensors are: the best score of a tag starts at 0. *)
Theorem tally_location_nonneg (g : Game.t) (team : Team.t) (location : Location.t) :
  0 ≤ tally_location g team location.
Proof.
  rewrite tally_location_verified. apply sum_points_nonneg.
  intros rfid. apply best_points_nonneg.
Qed.

(** X2.  When no rfid read at the location belongs to the team (ids that
    are not on the roster, bags of the other team, or no reading at all),
    no tag is verified and the tally is 0. *)
Theorem tally_location_ignores_strangers (g : Game.t) (team : Team.t)
    (location : Location.t) :
  (∀ rfid, rfid ∈ rfids_read g location → is_team_tag g team rfid = false) →
  verified_tags (tally_loops g team location) = ∅
  ∧ tally_location g team location = 0.
Proof.
  intros Hstrangers.
  assert (verified_tags (tally_loops g team location) = ∅) as Hnone.
  { apply set_eq. intros rfid. split; [|intros Hin; inversion Hin].
    rewrite tally_loops_hits. intros Hin%verified_were_hit.
    apply location_hits_rfids in Hin as [Hteam Hread].
    rewrite (Hstrangers rfid Hread) in Hteam. discriminate. }
  split; [exact Hnone|].
  rewrite tally_location_verified, Hnone. reflexivity.
Qed.

Lemma tally_location_ignores_strangers_witness :
  tally_location (Sample.game ["B1"; "no such bag"] [] [] []) Team.A Location.BOARD_1 = 0.
Proof.
  apply tally_location_ignores_strangers.
  intros rfid Hread. vm_compute in Hread.
  apply elem_of_cons in Hread as [->|Hread]; [reflexivity|].
  apply list_elem_of_singleton in Hread as ->. reflexivity.
Defined.

Lemma occurrence_weight_member (g : Game.t) (location : Location.t) (rfid : string)
    (sensor : Sensor.t) :
  (∀ s, s ∈ get_sensors_for_location g location → (0 <= Sensor.weight s)%Q) →
  sensor ∈ get_sensors_for_location g location →
  rfid ∈ Sensor.latest_reading sensor →
  (Sensor.weight sensor <= occurrence_weight g location rfid)%Q.
Proof.
  unfold occurrence_weight.
  induction (get_sensors_for_location g location) as [|s ss IH];
    intros Hweights Hin Hread; [inversion Hin|].
  cbn [foldr].
  assert (∀ l, (∀ s, s ∈ l → (0 <= Sensor.weight s)%Q) →
            (0 <= foldr (λ sensor total,
                     inject_Z (Z.of_nat (occurrences rfid sensor)) * Sensor.weight sensor
                     + total) 0 l)%Q) as Hnonneg.
  { clear. intros l. induction l as [|s l IH]; intros Hweights; cbn [foldr]; [lra|].
    assert (0 <= Sensor.weight s)%Q as Hs by (apply Hweights; left).
    assert (0 <= inject_Z (Z.of_nat (occurrences rfid s)))%Q as Hocc.
    { change 0%Q with (inject_Z 0). rewrite <- Zle_Qle. lia. }
    specialize (IH ltac:(intros; apply Hweights; right; assumption)).
    assert (0 <= inject_Z (Z.of_nat (occurrences rfid s)) * Sensor.weight s)%Q
      by (apply Qmult_le_0_compat; assumption).
    lra. }
  assert (0 <= Sensor.weight s)%Q as Hs by (apply Hweights; left).
  apply elem_of_cons in Hin as [->|Hin].
  - specialize (Hnonneg ss ltac:(intros; apply Hweights; right; assumption)).
    assert (1 <= inject_Z (Z.of_nat (occurrences rfid s)))%Q as Hocc.
    { change 1%Q with (inject_Z 1). rewrite <- Zle_Qle.
      unfold occurrences.
      assert (rfid ∈ filter (λ r, r = rfid) (Sensor.latest_reading s)) as Hf
        by (apply list_elem_of_filter; split; [reflexivity|assumption]).
      destruct (filter _ _); [inversion Hf|]. simpl. lia. }
    assert (Sensor.weight s
            <= inject_Z (Z.of_nat (occurrences rfid s)) * Sensor.weight s)%Q.
    { rewrite <- (Qmult_1_l (Sensor.weight s)) at 1.
      apply Qmult_le_compat_r; assumption. }
    lra.
  - specialize (IH ltac:(intros; apply Hweights; right; assumption) Hin Hread).
    assert (0 <= inject_Z (Z.of_nat (occurrences rfid s)))%Q as Hocc.
    { change 0%Q with (inject_Z 0). rewrite <- Zle_Qle. lia. }
    assert (0 <= inject_Z (Z.of_nat (occurrences rfid s)) * Sensor.weight s)%Q
      by (apply Qmult_le_0_compat; assumption).
    lra.
Qed.

(** X3.  One sensor whose weight alone reaches the threshold is enough: a
    bag of the team that it reads is verified, and the tally is at least the
    points of that sensor (the other sensors at the location having
    non-negative weights). *)
Theorem tally_location_single_sensor_suffices (g : Game.t) (team : Team.t)
    (location : Location.t) (sensor : Sensor.t) (rfid : string) :
  (∀ s, s ∈ get_sensors_for_location g location → (0 <= Sensor.weight s)%Q) →
  sensor ∈ get_sensors_for_location g location →
  (minimum_sensor_weight g <= Sensor.weight sensor)%Q →
  rfid ∈ Sensor.latest_reading sensor →
  is_team_tag g team rfid = true →
  rfid ∈ verified_tags (tally_loops g team location)
  ∧ Sensor.points_to_award sensor ≤ tally_location g team location.
Proof.
  intros Hweights Hsensor Hheavy Hread Hteam.
  assert (rfid ∈ verified_tags (tally_loops g team location)) as Hverified.
  { rewrite verified_tags_occurrences by exact Hweights.
    unfold credited. apply elem_of_list_to_set, list_elem_of_filter. split.
    - rewrite Hteam. simpl. apply Qle_bool_iff.
      pose proof (occurrence_weight_member g location rfid sensor Hweights Hsensor Hread).
      lra.
    - apply list_elem_of_bind. exists sensor. split; assumption. }
  split; [exact Hverified|].
  rewrite tally_location_verified.
  pose proof (sum_points_member (best_points g location) _ rfid
                (best_points_nonneg g location) Hverified) as Hsum.
  assert (Sensor.points_to_award sensor ≤ best_points g location rfid) as Hbest.
  { unfold best_points.
    assert (sensor ∈ readers g location rfid) as Hreader
      by (apply list_elem_of_filter; split; assumption).
    induction (readers g location rfid) as [|s l IH]; [inversion Hreader|].
    cbn [foldr]. apply elem_of_cons in Hreader as [->|Hreader]; [lia|].
    specialize (IH Hreader). lia. }
  lia.
Qed.

Lemma tally_location_single_sensor_suffices_witness :
  3 ≤ tally_location (Sample.game [] ["A2"] [] []) Team.A Location.HOLE_1.
Proof.
  apply (tally_location_single_sensor_suffices _ Team.A Location.HOLE_1
           (Sensor.Build "HOLE_1" 1 Location.HOLE_1 ["A2"] 3) "A2").
  - intros s Hin. vm_compute in Hin. apply list_elem_of_singleton in Hin as ->.
    vm_compute. discriminate.
  - vm_compute. left.
  - vm_compute. discriminate.
  - left.
  - vm_compute. reflexivity.
Defined.

(** ** The roster *)

Lemma roster_rfid_inj (roster : list Tag.t) (tag tag' : Tag.t) :
  NoDup (Tag.rfid <$> roster) → tag ∈ roster → tag' ∈ roster →
  Tag.rfid tag = Tag.rfid tag' → tag = tag'.
Proof.
  induction roster as [|first roster IH]; intros Hnodup Hin Hin' Hrfid; [inversion Hin|].
  rewrite fmap_cons in Hnodup. apply NoDup_cons in Hnodup as [Hfresh Hnodup].
  apply elem_of_cons in Hin as [->|Hin]; apply elem_of_cons in Hin' as [->|Hin'].
  - reflexivity.
  - exfalso. apply Hfresh. rewrite Hrfid. apply list_elem_of_fmap. eauto.
  - exfalso. apply Hfresh. rewrite <- Hrfid. apply list_elem_of_fmap. eauto.
  - apply IH; assumption.
Qed.

(** X4.  Looking a bag up by its rfid: on a roster without repeated rfids
    [get_tag_by_id] answers each roster tag for its own rfid, and it answers
    [None] exactly for the rfids that no roster tag has. *)
Theorem get_tag_by_id_roster (g : Game.t) :
  NoDup (Tag.rfid <$> tags g) →
  (∀ tag, tag ∈ tags g → get_tag_by_id g (Tag.rfid tag) = Some tag)
  ∧ (∀ rfid, get_tag_by_id g rfid = None ↔ rfid ∉ Tag.rfid <$> tags g).
Proof.
  intros Hnodup. split.
  - intros tag Hin.
    destruct (get_tag_by_id g (Tag.rfid tag)) as [found|] eqn:Hfound.
    + apply get_tag_by_id_Some in Hfound as [Hrfid Hfound].
      f_equal. apply (roster_rfid_inj (tags g)); assumption.
    + exfalso. exact (get_tag_by_id_None g _ tag Hfound Hin eq_refl).
  - intros rfid. split.
    + intros Hnone (tag & -> & Hin)%list_elem_of_fmap.
      exact (get_tag_by_id_None g _ tag Hnone Hin eq_refl).
    + intros Hfresh. destruct (get_tag_by_id g rfid) as [found|] eqn:Hfound;
        [|reflexivity].
      apply get_tag_by_id_Some in Hfound as [<- Hfound].
      exfalso. apply Hfresh. apply list_elem_of_fmap. eauto.
Qed.

Lemma get_tag_by_id_roster_witness :
  get_tag_by_id (Sample.game [] [] [] []) "B1" = Some (Tag.Build "B1" Team.B).
Proof.
  apply (proj1 (get_tag_by_id_roster (Sample.game [] [] [] [])
                  ltac:(apply (bool_decide_unpack _); vm_compute; exact I))
           (Tag.Build "B1" Team.B)).
  vm_compute. right. right. left.
Defined.

Lemma is_team_tag_roster (g : Game.t) (team : Team.t) (rfid : string) :
  is_team_tag g team rfid = true
  ↔ ∃ tag, tag ∈ tags g ∧ Tag.rfid tag = rfid ∧ Tag.team tag = team.
Proof.
  unfold is_team_tag. rewrite bool_decide_eq_true, list_elem_of_fmap. split.
  - intros (tag & -> & [Hteam Hin]%list_elem_of_filter). eauto.
  - intros (tag & Hin & <- & Hteam). exists tag. split; [reflexivity|].
    apply list_elem_of_filter. split; assumption.
Qed.

(** X5.  On a roster without repeated rfids no bag scores for two teams:
    the tags verified at a location for one team and for another team are
    disjoint. *)
Theorem verified_tags_of_one_team (g : Game.t) (team team' : Team.t)
    (location : Location.t) :
  NoDup (Tag.rfid <$> tags g) → team ≠ team' →
  verified_tags (tally_loops g team location)
  ## verified_tags (tally_loops g team' location).
Proof.
  intros Hnodup Hteams. apply elem_of_disjoint. intros rfid.
  rewrite !tally_loops_hits.
  intros [Hteam _]%verified_were_hit%location_hits_rfids
         [Hteam' _]%verified_were_hit%location_hits_rfids.
  apply is_team_tag_roster in Hteam as (tag & Hin & Hrfid & <-).
  apply is_team_tag_roster in Hteam' as (tag' & Hin' & Hrfid' & <-).
  apply Hteams. f_equal. apply (roster_rfid_inj (tags g)); congruence.
Qed.

Lemma verified_tags_of_one_team_witness :
  verified_tags (tally_loops (Sample.game ["A1"; "B1"] [] [] []) Team.A Location.BOARD_1)
  ## verified_tags (tally_loops (Sample.game ["A1"; "B1"] [] [] []) Team.B Location.BOARD_1).
Proof.
  apply verified_tags_of_one_team.
  - apply (bool_decide_unpack _). vm_compute. exact I.
  - discriminate.
Defined.

(** X6.  [was_tag_read] answers true exactly for the tags whose rfid the
    sensor's latest reading lists, however often it lists it. *)
Theorem was_tag_read_reading (sensor : Sensor.t) (tag : Tag.t) :
  Sensor.was_tag_read sensor tag = true ↔ Tag.rfid tag ∈ Sensor.latest_reading sensor.
Proof.
  unfold Sensor.was_tag_read. rewrite bool_decide_eq_true. split.
  - intros Hcount.
    destruct (filter _ (Sensor.latest_reading sensor)) as [|r l] eqn:Hfilter;
      [simpl in Hcount; lia|].
    assert (r ∈ filter (λ r, r = Tag.rfid tag) (Sensor.latest_reading sensor)) as Hin
      by (rewrite Hfilter; left).
    apply list_elem_of_filter in Hin as [-> Hin]. exact Hin.
  - intros Hin.
    assert (Tag.rfid tag ∈ filter (λ r, r = Tag.rfid tag) (Sensor.latest_reading sensor))
      as Hf by (apply list_elem_of_filter; split; [reflexivity|assumption]).
    destruct (filter _ _); [inversion Hf|]. simpl. lia.
Qed.

(** ** Turns and games *)

(** X7.  [end_turn] moves the margin of the turn into the winner's game
    score without changing any team's total score, so it never changes
    whether the winning score has been reached; and no game score goes
    down. *)
Theorem end_turn_keeps_total_score (g : Game.t) (w : World) (team : Team.t) :
  let g' := (end_turn (g, w)).2.1 in
  total_score g' team = total_score g team
  ∧ have_reached_winning_score g' = have_reached_winning_score g
  ∧ team_a_game_score g ≤ team_a_game_score g'
  ∧ team_b_game_score g ≤ team_b_game_score g'.
Proof.
  assert (∀ team, total_score (end_turn (g, w)).2.1 team = total_score g team) as Htotal.
  { intros t. run. unfold total_score.
    destruct (decide (0 < team_a_turn_score g - team_b_turn_score g));
      simpl; case_decide; lia. }
  cbv zeta. split; [apply Htotal|]. split.
  { unfold have_reached_winning_score. rewrite !Htotal. reflexivity. }
  run. destruct (decide (0 < team_a_turn_score g - team_b_turn_score g)); simpl; lia.
Qed.

(** X8.  [update_turn_score] stores non-negative turn scores, records the
    board (1 for board number 1, 2 for any other number) and touches nothing
    else. *)
Theorem update_turn_score_frame (board_number : Z) (g : Game.t) :
  let g' := update_turn_score board_number g in
  0 ≤ team_a_turn_score g' ∧ 0 ≤ team_b_turn_score g'
  ∧ last_board_played g' = (if decide (board_number = 1) then 1 else 2)
  ∧ turn_number g' = turn_number g
  ∧ time_of_turn_start g' = time_of_turn_start g
  ∧ state g' = state g
  ∧ time_of_last_sensor_read g' = time_of_last_sensor_read g
  ∧ time_of_last_button_read g' = time_of_last_button_read g
  ∧ tags g' = tags g ∧ sensors g' = sensors g
  ∧ minimum_sensor_weight g' = minimum_sensor_weight g.
Proof.
  cbv zeta. rewrite update_turn_score_stores. simpl.
  assert (∀ team, 0 ≤ tally_turn_board board_number g team) as Hnonneg.
  { intros team. unfold tally_turn_board, tally_turn_board_1, tally_turn_board_2.
    pose proof (tally_location_nonneg g team Location.BOARD_1).
    pose proof (tally_location_nonneg g team Location.HOLE_1).
    pose proof (tally_location_nonneg g team Location.BOARD_2).
    pose proof (tally_location_nonneg g team Location.HOLE_2).
    case_decide; lia. }
  repeat split; try apply Hnonneg.
Qed.

(** ** The event reader: polling and its answers *)

Lemma read_each_lookup (ss : list Sensor.t) (w : World) (i : nat) (s : Sensor.t) :
  ss !! i = Some s →
  (read_each ss w).1 !! i
  = Some (Sensor.set_latest_reading s (tag_reads w i (Sensor.id s))).
Proof.
  revert w i. induction ss as [|first ss IH]; intros w i Hi; [inversion Hi|].
  simpl. specialize (IH (call_read_tags (Sensor.id first) w).2). simpl in IH.
  destruct (read_each ss _) as [rest w2] eqn:Hrest. simpl in *.
  destruct i as [|i]; simpl in *.
  - injection Hi as ->. reflexivity.
  - apply IH. exact Hi.
Qed.

Lemma read_each_length (ss : list Sensor.t) (w : World) :
  length (read_each ss w).1 = length ss.
Proof.
  revert w. induction ss as [|first ss IH]; intros w; [reflexivity|].
  simpl. specialize (IH (call_read_tags (Sensor.id first) w).2). simpl in IH.
  destruct (read_each ss _) as [rest w2]. simpl in *. f_equal. exact IH.
Qed.

(** X9.  [read_sensors] reads every sensor once, in the order of the
    list: the sensor at position [i] gets the [i]-th next answer of the read
    callbacks as its cached reading and keeps everything else; the number of
    sensors is unchanged and the time of the reading is recorded. *)
Theorem read_sensors_readings (g : Game.t) (w : World) :
  let g' := (read_sensors (g, w)).2.1 in
  length (sensors g') = length (sensors g)
  ∧ (∀ i sensor, sensors g !! i = Some sensor →
       sensors g' !! i
       = Some (Sensor.set_latest_reading sensor (tag_reads w i (Sensor.id sensor))))
  ∧ time_of_last_sensor_read g' = clock w 0
  ∧ event_frame g g'.
Proof.
  cbv zeta. run. simpl.
  assert (∀ ss w, clock (read_each ss w).2 0 = clock w 0) as Hclock.
  { intros ss. induction ss as [|first ss IH]; intros w'; [reflexivity|].
    simpl. specialize (IH (call_read_tags (Sensor.id first) w').2). simpl in IH.
    destruct (read_each ss _) as [rest w2]. simpl in *. exact IH. }
  specialize (Hclock (sensors g) w).
  pose proof (read_each_length (sensors g) w) as Hlength.
  pose proof (read_each_lookup (sensors g) w) as Hlookup.
  pose proof (read_each_fixed (sensors g) w) as Hfixed.
  destruct (read_each (sensors g) w) as [ss w1]. simpl in *.
  repeat split; assumption.
Qed.

(** X10.  With no poll due (the turn is at most 4 s old or the button
    interval has not elapsed, and the sensor interval has not elapsed),
    [get_event] only looks at the clock: it answers TIMEOUT when the turn has
    lasted the timeout or more and NO_CHANGE otherwise, and leaves the game
    exactly as it was. *)
Theorem get_event_idle (g : Game.t) (w : World) :
  (clock w 1 - time_of_turn_start g <= 4
   ∨ clock w 0 - time_of_last_button_read g < button_polling_interval_in_seconds g)%Q →
  (clock w 0 - time_of_last_sensor_read g < rfid_polling_interval_in_seconds g)%Q →
  (get_event (g, w)).1
  = (if Qle_bool (timeout_in_seconds g) (clock w 2 - time_of_turn_start g)
     then GameEvent.TIMEOUT else GameEvent.NO_CHANGE)
  ∧ (get_event (g, w)).2.1 = g.
Proof.
  intros Hbuttons Hsensors.
  assert (Qlt_bool 4 (clock w 1 - time_of_turn_start g)
          && Qle_bool (button_polling_interval_in_seconds g)
                      (clock w 0 - time_of_last_button_read g) = false) as Hb.
  { apply andb_false_iff. destruct Hbuttons as [Hyoung|Hearly]; [left|right].
    - destruct (Qlt_bool _ _) eqn:E; [apply Qlt_bool_iff in E; lra|reflexivity].
    - destruct (Qle_bool _ _) eqn:E; [apply Qle_bool_iff in E; lra|reflexivity]. }
  assert (Qle_bool (rfid_polling_interval_in_seconds g)
                   (clock w 0 - time_of_last_sensor_read g) = false) as Hs.
  { clear Hb. destruct (Qle_bool _ _) eqn:E; [apply Qle_bool_iff in E; lra|reflexivity]. }
  run. simpl. rewrite Hb. simpl. rewrite Hs. simpl. clear Hb Hs.
  destruct (Qle_bool _ _); split; reflexivity.
Qed.

Lemma get_event_idle_witness :
  (get_event (set_time_of_last_sensor_read 99
                (set_time_of_last_button_read 100 (Sample.game [] [] [] [])),
              Sample.world)).1 = GameEvent.TIMEOUT.
Proof.
  apply get_event_idle.
  - right. vm_compute. reflexivity.
  - vm_compute. reflexivity.
Defined.

Lemma get_event_buttons_events now s event :
  (get_event_buttons now s).1 = Some event →
  event = GameEvent.BUTTON_PRESSED
  ∨ event = GameEvent.QUIT
    ∧ (4 < clock s.2 0 - time_of_turn_start s.1)%Q
    ∧ (button_polling_interval_in_seconds s.1 <= now - time_of_last_button_read s.1)%Q
    ∧ button_states s.2 0 = (false, false, true).
Proof.
  destruct s as [g w]. run. simpl.
  destruct (Qlt_bool _ _) eqn:Hturn; simpl; [|discriminate].
  destruct (Qle_bool _ _) eqn:Hdue; simpl; [|discriminate].
  apply Qlt_bool_iff in Hturn. apply Qle_bool_iff in Hdue.
  destruct (button_states w 0) as [[[] []] []]; simpl; intros [= <-]; auto.
Qed.

Lemma get_event_sensors_changed now s event :
  (get_event_sensors now s).1 = Some event →
  let g' := (get_event_sensors now s).2.1 in
  event = GameEvent.TAGS_CHANGED_ON_BOARD_1
    ∧ last_board_played g' = 1
    ∧ (tally_turn_board_1 g' Team.A ≠ team_a_turn_score g'
       ∨ tally_turn_board_1 g' Team.B ≠ team_b_turn_score g')
  ∨ event = GameEvent.TAGS_CHANGED_ON_BOARD_2
    ∧ (tally_turn_board_2 g' Team.A ≠ team_a_turn_score g'
       ∨ tally_turn_board_2 g' Team.B ≠ team_b_turn_score g').
Proof.
  destruct s as [g w]. run. simpl.
  destruct (Qle_bool _ _); simpl; [|discriminate].
  destruct (read_each (sensors g) w) as [ss w1]. simpl.
  set (g1 := set_time_of_last_sensor_read _ _).
  assert (∀ board team, tally_turn_board_1 (set_last_board_played board g1) team
                        = tally_turn_board_1 g1 team
                        ∧ tally_turn_board_2 (set_last_board_played board g1) team
                          = tally_turn_board_2 g1 team) as Hsame.
  { intros board team. apply tally_turn_boards_depend; reflexivity. }
  destruct (decide (0 < tally_turn_board_1 g1 Team.A + tally_turn_board_1 g1 Team.B)).
  { destruct (decide (_ ∨ _)) as [Hdiff|]; simpl; [intros [= <-]|intros [=]]. left.
    rewrite !(proj1 (Hsame 1 _)). auto. }
  destruct (decide (0 < tally_turn_board_2 g1 Team.A + tally_turn_board_2 g1 Team.B)).
  { destruct (decide (_ ∨ _)) as [Hdiff|]; simpl; [intros [= <-]|intros [=]]. right.
    rewrite !(proj2 (Hsame 2 _)). auto. }
  assert (team_a_turn_score g1 = team_a_turn_score g) as Ha by reflexivity.
  assert (team_b_turn_score g1 = team_b_turn_score g) as Hb by reflexivity.
  assert (last_board_played g1 = last_board_played g) as Hboard by reflexivity.
  destruct (decide (0 < team_a_turn_score g + team_b_turn_score g)) as [Hstored|];
    [|simpl; intros [=]].
  destruct (decide (last_board_played g = 1)) as [Hlast|Hlast]; simpl; intros [= <-];
    [left|right]; rewrite ?Ha, ?Hb, ?Hboard; repeat split; try assumption.
  - destruct (decide (tally_turn_board_1 g1 Team.A = team_a_turn_score g));
      [right|left; assumption]. lia.
  - destruct (decide (tally_turn_board_2 g1 Team.A = team_a_turn_score g));
      [right|left; assumption]. lia.
Qed.

Lemma get_event_timeout_answers s :
  (get_event_timeout s).1 = GameEvent.TIMEOUT ∨ (get_event_timeout s).1 = GameEvent.NO_CHANGE.
Proof.
  destruct s as [g w]. run. simpl. destruct (Qle_bool _ _); simpl; auto.
Qed.

(** How an answer of [get_event] comes about: from the buttons, from the
    sensors, or from the clock. *)
Lemma get_event_origin (g : Game.t) (w : World) :
  let s0 := (g, (time_time w).2) in
  (get_event_buttons (clock w 0) s0).1 = Some (get_event (g, w)).1
  ∨ (get_event_buttons (clock w 0) s0).1 = None
    ∧ (let s1 := (get_event_buttons (clock w 0) s0).2 in
       (get_event_sensors (clock w 0) s1).1 = Some (get_event (g, w)).1
       ∧ (get_event (g, w)).2 = (get_event_sensors (clock w 0) s1).2
       ∨ (get_event (g, w)).1 = GameEvent.TIMEOUT
       ∨ (get_event (g, w)).1 = GameEvent.NO_CHANGE).
Proof.
  cbv zeta. rewrite get_event_parts.
  destruct (get_event_buttons _ _) as [[pressed|] s1]; simpl; [left; reflexivity|].
  right. split; [reflexivity|].
  destruct (get_event_sensors _ _) as [[changed|] s2]; simpl; [left; split; reflexivity|].
  right. apply get_event_timeout_answers.
Qed.

(** X11.  When [get_event] answers TAGS_CHANGED_ON_BOARD_1, it leaves
    [last_board_played] at 1, and the tallies of board 1 under the readings
    it has just taken differ from the stored turn scores of at least one
    team. *)
Theorem get_event_board_1_change (g : Game.t) (w : World) :
  (get_event (g, w)).1 = GameEvent.TAGS_CHANGED_ON_BOARD_1 →
  let g' := (get_event (g, w)).2.1 in
  last_board_played g' = 1
  ∧ (tally_turn_board_1 g' Team.A ≠ team_a_turn_score g'
     ∨ tally_turn_board_1 g' Team.B ≠ team_b_turn_score g').
Proof.
  intros Hevent. cbv zeta.
  destruct (get_event_origin g w) as [Hpressed|[_ [[Hchanged ->]|Hclock]]].
  - apply get_event_buttons_events in Hpressed as [Hp|[Hp _]]; congruence.
  - apply get_event_sensors_changed in Hchanged as [(_ & Hlast & Hdiff)|[Hc _]];
      [auto|congruence].
  - destruct Hclock; congruence.
Qed.

Lemma get_event_board_1_change_witness :
  last_board_played
    (get_event (set_time_of_last_button_read 200 (Sample.game [] [] [] []),
                Sample.world)).2.1 = 1.
Proof.
  apply get_event_board_1_change. vm_compute. reflexivity.
Defined.

(** X12.  When [get_event] answers TAGS_CHANGED_ON_BOARD_2, the tallies of
    board 2 under the readings it has just taken differ from the stored turn
    scores of at least one team. *)
Theorem get_event_board_2_change (g : Game.t) (w : World) :
  (get_event (g, w)).1 = GameEvent.TAGS_CHANGED_ON_BOARD_2 →
  let g' := (get_event (g, w)).2.1 in
  tally_turn_board_2 g' Team.A ≠ team_a_turn_score g'
  ∨ tally_turn_board_2 g' Team.B ≠ team_b_turn_score g'.
Proof.
  intros Hevent. cbv zeta.
  destruct (get_event_origin g w) as [Hpressed|[_ [[Hchanged ->]|Hclock]]].
  - apply get_event_buttons_events in Hpressed as [Hp|[Hp _]]; congruence.
  - apply get_event_sensors_changed in Hchanged as [[Hc _]|[_ Hdiff]];
      [congruence|auto].
  - destruct Hclock; congruence.
Qed.

Lemma get_event_board_2_change_witness :
  (get_event (Sample.game_bags_removed, Sample.quiet_world)).1
  = GameEvent.TAGS_CHANGED_ON_BOARD_2
  ∧ (tally_turn_board_2 (get_event (Sample.game_bags_removed, Sample.quiet_world)).2.1
       Team.A
     ≠ team_a_turn_score (get_event (Sample.game_bags_removed, Sample.quiet_world)).2.1
     ∨ tally_turn_board_2 (get_event (Sample.game_bags_removed, Sample.quiet_world)).2.1
         Team.B
       ≠ team_b_turn_score (get_event (Sample.game_bags_removed, Sample.quiet_world)).2.1).
Proof.
  assert ((get_event (Sample.game_bags_removed, Sample.quiet_world)).1
          = GameEvent.TAGS_CHANGED_ON_BOARD_2) as Hevent by (vm_compute; reflexivity).
  split; [exact Hevent|].
  exact (get_event_board_2_change Sample.game_bags_removed Sample.quiet_world Hevent).
Defined.

(** X13.  [get_event] answers QUIT only when it has polled the buttons
    (turn older than 4 s, button interval elapsed) and the callback reported
    the quit signal with neither board button pressed. *)
Theorem get_event_quit (g : Game.t) (w : World) :
  (get_event (g, w)).1 = GameEvent.QUIT →
  (4 < clock w 1 - time_of_turn_start g)%Q
  ∧ (button_polling_interval_in_seconds g <= clock w 0 - time_of_last_button_read g)%Q
  ∧ button_states w 0 = (false, false, true).
Proof.
  intros Hevent.
  destruct (get_event_origin g w) as [Hpressed|[_ [[Hchanged _]|Hclock]]].
  - apply get_event_buttons_events in Hpressed as [Hp|(_ & Hturn & Hdue & Hquit)];
      [congruence|]. auto.
  - apply get_event_sensors_changed in Hchanged as [[Hc _]|[Hc _]]; congruence.
  - destruct Hclock; congruence.
Qed.

Lemma get_event_quit_witness :
  (get_event (Sample.game [] [] [] [], Sample.quitting_world)).1 = GameEvent.QUIT
  ∧ button_states Sample.quitting_world 0 = (false, false, true).
Proof.
  split; [vm_compute; reflexivity|].
  apply (get_event_quit (Sample.game [] [] [] [])). vm_compute. reflexivity.
Defined.

(** ** The state machine *)

Ltac run_handler :=
  cbv [state_machine
       process_start_state process_playing_board_1_state process_playing_board_2_state
       process_board_clear_state process_playing_game_over_state process_turn_over_state
       end_turn new_game display
       this assign call answer modify get mbind mret State_bind State_ret
       time_time call_display fst snd].

(** The handlers compute [handled]; what they do besides is display. *)
Lemma state_machine_handled (state : GameState.t) (event : GameEvent.t)
    (g : Game.t) (w : World) :
  ((state_machine state event (g, w)).1, (state_machine state event (g, w)).2.1)
  = handled state event (clock w 0) g.
Proof.
  unfold handled, turn_ended, game_reset.
  destruct state; run_handler;
    try (destruct (are_boards_clear g); [reflexivity|]);
    try (destruct (have_reached_winning_score g); [reflexivity|]);
    destruct event; try reflexivity;
    try (destruct (decide (0 < _)); reflexivity);
    repeat case_decide; try congruence; reflexivity.
Qed.

Lemma state_machine_next (state : GameState.t) (event : GameEvent.t)
    (g : Game.t) (w : World) :
  (state_machine state event (g, w)).1 = (handled state event (clock w 0) g).1.
Proof. rewrite <- state_machine_handled. reflexivity. Qed.

Lemma state_machine_game (state : GameState.t) (event : GameEvent.t)
    (g : Game.t) (w : World) :
  (state_machine state event (g, w)).2.1 = (handled state event (clock w 0) g).2.
Proof. rewrite <- state_machine_handled. reflexivity. Qed.

Lemma turn_ended_fields (now : Q) (g : Game.t) :
  team_a_game_score (turn_ended now g)
    = team_a_game_score g + Z.max 0 (team_a_turn_score g - team_b_turn_score g)
  ∧ team_b_game_score (turn_ended now g)
    = team_b_game_score g + Z.max 0 (team_b_turn_score g - team_a_turn_score g)
  ∧ team_a_turn_score (turn_ended now g) = 0
  ∧ team_b_turn_score (turn_ended now g) = 0
  ∧ turn_number (turn_ended now g) = turn_number g + 1
  ∧ last_board_played (turn_ended now g) = last_board_played g.
Proof.
  unfold turn_ended.
  destruct (decide (0 < team_a_turn_score g - team_b_turn_score g)); simpl;
    repeat apply conj; try reflexivity; lia.
Qed.

Lemma update_turn_score_fields (board_number : Z) (g : Game.t) :
  team_a_game_score (update_turn_score board_number g) = team_a_game_score g
  ∧ team_b_game_score (update_turn_score board_number g) = team_b_game_score g
  ∧ team_a_turn_score (update_turn_score board_number g)
    = tally_turn_board board_number g Team.A
  ∧ team_b_turn_score (update_turn_score board_number g)
    = tally_turn_board board_number g Team.B
  ∧ turn_number (update_turn_score board_number g) = turn_number g
  ∧ last_board_played (update_turn_score board_number g)
    = (if decide (board_number = 1) then 1 else 2).
Proof. rewrite update_turn_score_stores. repeat apply conj; reflexivity. Qed.

Lemma tally_turn_board_nonneg (board_number : Z) (g : Game.t) (team : Team.t) :
  0 ≤ tally_turn_board board_number g team.
Proof.
  unfold tally_turn_board, tally_turn_board_1, tally_turn_board_2.
  pose proof (tally_location_nonneg g team Location.BOARD_1).
  pose proof (tally_location_nonneg g team Location.HOLE_1).
  pose proof (tally_location_nonneg g team Location.BOARD_2).
  pose proof (tally_location_nonneg g team Location.HOLE_2).
  case_decide; lia.
Qed.

Lemma tally_turn_board_depends (board_number : Z) (g g' : Game.t) (team : Team.t) :
  tags g' = tags g → minimum_sensor_weight g' = minimum_sensor_weight g →
  sensors g' = sensors g →
  tally_turn_board board_number g' team = tally_turn_board board_number g team.
Proof.
  intros Htags Hmin Hsensors. unfold tally_turn_board.
  destruct (tally_turn_boards_depend g g' team Htags Hmin Hsensors) as [-> ->].
  reflexivity.
Qed.

(** X14.  In PLAYING_BOARD_1, PLAYING_BOARD_2 and BOARD_CLEAR a reached
    winning score comes before the event: the handler answers GAME_OVER for
    every event and leaves the game as it is (it only displays). *)
Theorem winning_score_ends_game (state : GameState.t) (event : GameEvent.t)
    (g : Game.t) (w : World) :
  state = GameState.PLAYING_BOARD_1 ∨ state = GameState.PLAYING_BOARD_2
  ∨ state = GameState.BOARD_CLEAR →
  have_reached_winning_score g = true →
  (state_machine state event (g, w)).1 = GameState.GAME_OVER
  ∧ (state_machine state event (g, w)).2.1 = g.
Proof.
  intros Hstate Hwon. rewrite state_machine_next, state_machine_game.
  destruct Hstate as [-> | [-> | ->]]; unfold handled; rewrite Hwon;
    split; reflexivity.
Qed.

Lemma winning_score_ends_game_witness :
  (state_machine GameState.BOARD_CLEAR GameEvent.NO_CHANGE
     (set_team_a_game_score 21 (Sample.game [] [] [] []), Sample.world)).1
  = GameState.GAME_OVER.
Proof.
  apply winning_score_ends_game; [right; right; reflexivity|].
  vm_compute. reflexivity.
Defined.

(** X15.  Ending a turn.  In the playing state of board [n], the winning
    score not being reached, BUTTON_PRESSED and TIMEOUT lead to TURN_OVER:
    the turn is scored from the tallies of board [n] under the cached
    readings, not from the stored turn scores; the team ahead gets the margin
    added to its game score, the turn scores are 0 afterwards and the turn
    number is one more. *)
Theorem playing_turn_ends (board_number : Z) (event : GameEvent.t)
    (g : Game.t) (w : World) :
  have_reached_winning_score g = false →
  event = GameEvent.BUTTON_PRESSED ∨ event = GameEvent.TIMEOUT →
  let result := state_machine (playing_state board_number) event (g, w) in
  let tally := tally_turn_board board_number g in
  result.1 = GameState.TURN_OVER
  ∧ team_a_game_score result.2.1
    = team_a_game_score g + Z.max 0 (tally Team.A - tally Team.B)
  ∧ team_b_game_score result.2.1
    = team_b_game_score g + Z.max 0 (tally Team.B - tally Team.A)
  ∧ team_a_turn_score result.2.1 = 0 ∧ team_b_turn_score result.2.1 = 0
  ∧ turn_number result.2.1 = turn_number g + 1.
Proof.
  intros Hplaying Hevent. cbv zeta. rewrite state_machine_next, state_machine_game.
  assert (∃ n, (n = 1 ∨ n = 2)
               ∧ tally_turn_board board_number g = tally_turn_board n g
               ∧ handled (playing_state board_number) event (clock w 0) g
                 = (GameState.TURN_OVER, turn_ended (clock w 0) (update_turn_score n g)))
    as (n & _ & -> & ->).
  { unfold playing_state, tally_turn_board.
    destruct (decide (board_number = 1)); [exists 1|exists 2];
      (split; [auto|]); (split; [reflexivity|]);
      unfold handled; rewrite Hplaying; destruct Hevent as [-> | ->]; reflexivity. }
  cbn [fst snd].
  destruct (turn_ended_fields (clock w 0) (update_turn_score n g))
    as (-> & -> & -> & -> & -> & _).
  destruct (update_turn_score_fields n g) as (-> & -> & -> & -> & -> & _).
  repeat apply conj; reflexivity.
Qed.

Lemma playing_turn_ends_witness :
  have_reached_winning_score (set_team_b_turn_score 2 (Sample.game ["A1"] ["A2"] [] []))
  = false
  ∧ (state_machine (playing_state 1) GameEvent.BUTTON_PRESSED
       (set_team_b_turn_score 2 (Sample.game ["A1"] ["A2"] [] []), Sample.world)).1
    = GameState.TURN_OVER.
Proof.
  split; [vm_compute; reflexivity|].
  apply (playing_turn_ends 1 GameEvent.BUTTON_PRESSED
           (set_team_b_turn_score 2 (Sample.game ["A1"] ["A2"] [] [])) Sample.world).
  - vm_compute. reflexivity.
  - left. reflexivity.
Defined.

(** X16.  What a playing state ignores.  The winning score not being
    reached, NO_CHANGE, QUIT and a tag change on the other board leave the
    state, the game and the world exactly as they are. *)
Theorem playing_ignores (board_number : Z) (event : GameEvent.t)
    (g : Game.t) (w : World) :
  have_reached_winning_score g = false →
  event = GameEvent.NO_CHANGE ∨ event = GameEvent.QUIT
  ∨ event = (if decide (board_number = 1) then GameEvent.TAGS_CHANGED_ON_BOARD_2
             else GameEvent.TAGS_CHANGED_ON_BOARD_1) →
  state_machine (playing_state board_number) event (g, w)
  = (playing_state board_number, (g, w)).
Proof.
  intros Hplaying Hevent. unfold playing_state in *.
  destruct (decide (board_number = 1)) as [Hboard|Hboard];
    destruct Hevent as [-> | [-> | ->]]; run_handler;
    rewrite Hplaying; reflexivity.
Qed.

Lemma playing_ignores_witness :
  state_machine (playing_state 1) GameEvent.TAGS_CHANGED_ON_BOARD_2
    (Sample.game ["A1"] [] ["B1"] [], Sample.world)
  = (GameState.PLAYING_BOARD_1, (Sample.game ["A1"] [] ["B1"] [], Sample.world)).
Proof.
  apply (playing_ignores 1).
  - vm_compute. reflexivity.
  - right. right. reflexivity.
Defined.

(** X17.  A tag change starts or continues a turn.  From START and
    BOARD_CLEAR, and in the playing state of the same board, a tag change on
    board [n] leads to the playing state of board [n] with the turn scores
    set to the tallies of board [n] and the game scores untouched (in
    BOARD_CLEAR and the playing state provided the winning score is not
    reached); from START the turn number is set to 1. *)
Theorem tag_change_starts_turn (state : GameState.t) (board_number : Z)
    (g : Game.t) (w : World) :
  state = GameState.START
  ∨ have_reached_winning_score g = false
    ∧ (state = GameState.BOARD_CLEAR ∨ state = playing_state board_number) →
  let event := if decide (board_number = 1) then GameEvent.TAGS_CHANGED_ON_BOARD_1
               else GameEvent.TAGS_CHANGED_ON_BOARD_2 in
  let result := state_machine state event (g, w) in
  result.1 = playing_state board_number
  ∧ team_a_turn_score result.2.1 = tally_turn_board board_number g Team.A
  ∧ team_b_turn_score result.2.1 = tally_turn_board board_number g Team.B
  ∧ team_a_game_score result.2.1 = team_a_game_score g
  ∧ team_b_game_score result.2.1 = team_b_game_score g
  ∧ turn_number result.2.1
    = (if decide (state = GameState.START) then 1 else turn_number g).
Proof.
  intros Hstate. cbv zeta. rewrite state_machine_next, state_machine_game.
  set (event := if decide (board_number = 1) then _ else _).
  assert (∃ n h, (n = 1 ∨ n = 2)
                 ∧ (h = g ∧ state ≠ GameState.START
                    ∨ h = set_turn_number 1 g ∧ state = GameState.START)
                 ∧ (∀ team, tally_turn_board board_number g team = tally_turn_board n h team)
                 ∧ handled state event (clock w 0) g
                   = (playing_state board_number, update_turn_score n h))
    as (n & h & _ & Hh & Htally & ->).
  { unfold playing_state, tally_turn_board, event in *.
    destruct (decide (board_number = 1)); [exists 1|exists 2];
      (destruct Hstate as [-> | [Hplaying [-> | ->]]];
       [exists (set_turn_number 1 g)|exists g|exists g]);
      (split; [auto|]);
      (split; [first [left; split; [reflexivity|discriminate]
                     |right; split; reflexivity]|]);
      (split; [intros team;
               first [reflexivity
                     |symmetry; apply (tally_turn_boards_depend g (set_turn_number 1 g));
                      reflexivity]|]);
      unfold handled; rewrite ?Hplaying; reflexivity. }
  cbn [fst snd]. rewrite !Htally.
  destruct (update_turn_score_fields n h) as (-> & -> & -> & -> & -> & _).
  destruct Hh as [[-> Hstart] | [-> ->]].
  - rewrite decide_False by exact Hstart. repeat apply conj; reflexivity.
  - rewrite decide_True by reflexivity. repeat apply conj; reflexivity.
Qed.

Lemma tag_change_starts_turn_witness :
  (state_machine GameState.START GameEvent.TAGS_CHANGED_ON_BOARD_1
     (Sample.game ["A1"] [] [] [], Sample.world)).1
  = GameState.PLAYING_BOARD_1.
Proof.
  apply (tag_change_starts_turn GameState.START 1). left. reflexivity.
Defined.

Lemma game_reset_fields (now : Q) (g : Game.t) :
  team_a_game_score (game_reset now g) = 0 ∧ team_b_game_score (game_reset now g) = 0
  ∧ team_a_turn_score (game_reset now g) = 0 ∧ team_b_turn_score (game_reset now g) = 0
  ∧ turn_number (game_reset now g) = 1 ∧ last_board_played (game_reset now g) = 0.
Proof. repeat apply conj; reflexivity. Qed.

(** X18.  Leaving GAME_OVER starts a new game.  TIMEOUT and BUTTON_PRESSED
    lead to START with all four scores 0; a tag change on board [n] leads to
    the playing state of board [n] with game scores 0 and the turn scores set
    to the tallies of board [n]; in each case the turn number is 1.
    NO_CHANGE and QUIT stay in GAME_OVER and leave the game as it is. *)
Theorem game_over_restarts (event : GameEvent.t) (g : Game.t) (w : World) :
  let result := state_machine GameState.GAME_OVER event (g, w) in
  match event with
  | GameEvent.NO_CHANGE | GameEvent.QUIT =>
      result.1 = GameState.GAME_OVER ∧ result.2.1 = g
  | GameEvent.TIMEOUT | GameEvent.BUTTON_PRESSED =>
      result.1 = GameState.START
      ∧ team_a_game_score result.2.1 = 0 ∧ team_b_game_score result.2.1 = 0
      ∧ team_a_turn_score result.2.1 = 0 ∧ team_b_turn_score result.2.1 = 0
      ∧ turn_number result.2.1 = 1 ∧ last_board_played result.2.1 = 0
  | GameEvent.TAGS_CHANGED_ON_BOARD_1 =>
      result.1 = GameState.PLAYING_BOARD_1
      ∧ team_a_game_score result.2.1 = 0 ∧ team_b_game_score result.2.1 = 0
      ∧ team_a_turn_score result.2.1 = tally_turn_board_1 g Team.A
      ∧ team_b_turn_score result.2.1 = tally_turn_board_1 g Team.B
      ∧ turn_number result.2.1 = 1
  | GameEvent.TAGS_CHANGED_ON_BOARD_2 =>
      result.1 = GameState.PLAYING_BOARD_2
      ∧ team_a_game_score result.2.1 = 0 ∧ team_b_game_score result.2.1 = 0
      ∧ team_a_turn_score result.2.1 = tally_turn_board_2 g Team.A
      ∧ team_b_turn_score result.2.1 = tally_turn_board_2 g Team.B
      ∧ turn_number result.2.1 = 1
  end.
Proof.
  cbv zeta. rewrite state_machine_next, state_machine_game.
  destruct event; unfold handled; cbn [fst snd]; repeat apply conj; reflexivity.
Qed.

(** X19.  The game scores are written only when a turn ends and when a
    game restarts: the TURN_OVER handler leaves the whole game exactly as it
    is, whatever the event; and a handler of START, BOARD_CLEAR or a playing
    state that does not answer TURN_OVER leaves both game scores as they
    are. *)
Theorem game_scores_written_at_turn_end (state : GameState.t) (event : GameEvent.t)
    (g : Game.t) (w : World) :
  let result := state_machine state event (g, w) in
  (state = GameState.TURN_OVER → result.2.1 = g)
  ∧ (state ≠ GameState.TURN_OVER → state ≠ GameState.GAME_OVER →
     result.1 ≠ GameState.TURN_OVER →
     team_a_game_score result.2.1 = team_a_game_score g
     ∧ team_b_game_score result.2.1 = team_b_game_score g).
Proof.
  cbv zeta. rewrite state_machine_next, state_machine_game.
  pose proof (update_turn_score_fields 1 g) as (Ha1 & Hb1 & _).
  pose proof (update_turn_score_fields 2 g) as (Ha2 & Hb2 & _).
  pose proof (update_turn_score_fields 1 (set_turn_number 1 g)) as (Ha1' & Hb1' & _).
  pose proof (update_turn_score_fields 2 (set_turn_number 1 g)) as (Ha2' & Hb2' & _).
  split.
  - intros ->. unfold handled.
    destruct (are_boards_clear g); [reflexivity|].
    destruct (have_reached_winning_score g); [reflexivity|].
    destruct event; reflexivity.
  - intros Hturn_over Hgame_over. destruct state; try congruence; unfold handled.
    + intros _. destruct event; cbn [fst snd]; split; first [reflexivity|assumption].
    + destruct (have_reached_winning_score g); [intros _; split; reflexivity|].
      destruct event; cbn [fst snd]; intros Hnext; try congruence;
        split; first [reflexivity|assumption].
    + destruct (have_reached_winning_score g); [intros _; split; reflexivity|].
      destruct event; cbn [fst snd]; intros Hnext; try congruence;
        split; first [reflexivity|assumption].
    + intros _. destruct (have_reached_winning_score g); [split; reflexivity|].
      destruct event; cbn [fst snd]; split; first [reflexivity|assumption].
Qed.

(** X20.  The handlers follow the state diagram: from START only to the
    playing states, from a playing state only to TURN_OVER or GAME_OVER, from
    TURN_OVER only to BOARD_CLEAR or GAME_OVER, from BOARD_CLEAR only to the
    playing states or GAME_OVER, from GAME_OVER only to START or the playing
    states (or the state stays).  In particular play never passes from one
    board to the other within a turn, and never resumes from TURN_OVER
    before the boards are clear. *)
Theorem handlers_follow_diagram (state : GameState.t) (event : GameEvent.t)
    (s : Game.t * World) :
  may_follow state (state_machine state event s).1 = true.
Proof.
  destruct s as [g w]. rewrite state_machine_next. unfold handled.
  destruct state;
    try (destruct (are_boards_clear g); [reflexivity|]);
    try (destruct (have_reached_winning_score g); [reflexivity|]);
    destruct event; reflexivity.
Qed.

(** ** The polling loop *)

Lemma scores_in_range_updated (board_number : Z) (g : Game.t) :
  scores_in_range g → scores_in_range (update_turn_score board_number g).
Proof.
  unfold scores_in_range. intros (Ha & Hb & _ & _ & Hturn & _).
  destruct (update_turn_score_fields board_number g) as (-> & -> & -> & -> & -> & ->).
  pose proof (tally_turn_board_nonneg board_number g Team.A).
  pose proof (tally_turn_board_nonneg board_number g Team.B).
  repeat apply conj; try assumption. case_decide; auto.
Qed.

Lemma scores_in_range_turn_ended (now : Q) (g : Game.t) :
  scores_in_range g → scores_in_range (turn_ended now g).
Proof.
  unfold scores_in_range. intros (Ha & Hb & _ & _ & Hturn & Hboard).
  destruct (turn_ended_fields now g) as (-> & -> & -> & -> & -> & ->).
  repeat apply conj; try assumption; lia.
Qed.

Lemma scores_in_range_game_reset (now : Q) (g : Game.t) :
  scores_in_range (game_reset now g).
Proof. unfold scores_in_range. simpl. repeat apply conj; lia. Qed.

Lemma handled_keeps_invariants (state : GameState.t) (event : GameEvent.t) (now : Q)
    (g : Game.t) :
  scores_in_range g → settled_in state g →
  scores_in_range (handled state event now g).2
  ∧ settled_in (handled state event now g).1 (handled state event now g).2.
Proof.
  intros Hrange Hsettled.
  assert (scores_in_range (set_turn_number 1 g)) as Hfirst.
  { destruct Hrange as (? & ? & ? & ? & ? & ?). unfold scores_in_range. simpl.
    repeat apply conj; try assumption. lia. }
  pose proof (turn_ended_fields now (update_turn_score 1 g)) as (_ & _ & Ha1 & Hb1 & _).
  pose proof (turn_ended_fields now (update_turn_score 2 g)) as (_ & _ & Ha2 & Hb2 & _).
  destruct state; unfold handled;
    try (destruct (are_boards_clear g); [split; [exact Hrange|exact Hsettled]|]);
    try (destruct (have_reached_winning_score g); [split; [exact Hrange|exact I]|]);
    destruct event; cbn [fst snd]; split;
    lazymatch goal with
    | |- scores_in_range (turn_ended _ (update_turn_score _ _)) =>
        apply scores_in_range_turn_ended, scores_in_range_updated; exact Hrange
    | |- scores_in_range (update_turn_score _ (set_turn_number 1 _)) =>
        apply scores_in_range_updated; exact Hfirst
    | |- scores_in_range (update_turn_score _ (game_reset _ _)) =>
        apply scores_in_range_updated, scores_in_range_game_reset
    | |- scores_in_range (update_turn_score _ _) =>
        apply scores_in_range_updated; exact Hrange
    | |- scores_in_range (game_reset _ _) => apply scores_in_range_game_reset
    | |- scores_in_range _ => exact Hrange
    | |- settled_in GameState.TURN_OVER (turn_ended _ (update_turn_score 1 _)) =>
        exact (conj Ha1 Hb1)
    | |- settled_in GameState.TURN_OVER (turn_ended _ (update_turn_score 2 _)) =>
        exact (conj Ha2 Hb2)
    | |- settled_in GameState.START (game_reset _ _) =>
        cbn [settled_in]; repeat apply conj; reflexivity
    | |- settled_in GameState.PLAYING_BOARD_1 _ => exact I
    | |- settled_in GameState.PLAYING_BOARD_2 _ => exact I
    | |- settled_in GameState.GAME_OVER _ => exact I
    | |- settled_in _ _ => exact Hsettled
    end.
Qed.

Lemma get_event_buttons_board now s :
  last_board_played (get_event_buttons now s).2.1 = last_board_played s.1.
Proof.
  destruct s as [g w]. run. simpl.
  destruct (_ && _); simpl; [|reflexivity].
  destruct (button_states w 0) as [[[] []] []]; reflexivity.
Qed.

Lemma get_event_sensors_board now s :
  last_board_played (get_event_sensors now s).2.1 = last_board_played s.1
  ∨ last_board_played (get_event_sensors now s).2.1 = 1
  ∨ last_board_played (get_event_sensors now s).2.1 = 2.
Proof.
  destruct s as [g w]. run. simpl.
  destruct (Qle_bool _ _); simpl; [|left; reflexivity].
  destruct (read_each (sensors g) w) as [ss w1]. simpl.
  repeat case_decide; simpl; auto.
Qed.

Lemma get_event_board (g : Game.t) (w : World) :
  last_board_played (get_event (g, w)).2.1 = last_board_played g
  ∨ last_board_played (get_event (g, w)).2.1 = 1
  ∨ last_board_played (get_event (g, w)).2.1 = 2.
Proof.
  rewrite get_event_parts.
  pose proof (get_event_buttons_board (clock w 0) (g, (time_time w).2)) as Hb.
  destruct (get_event_buttons _ _) as [pressed s]. simpl in Hb.
  destruct pressed as [event|]; [left; exact Hb|].
  pose proof (get_event_sensors_board (clock w 0) s) as Hs.
  destruct (get_event_sensors _ _) as [changed s']. simpl in Hs.
  destruct changed as [event|]; simpl; [|rewrite get_event_timeout_frame];
    rewrite <- Hb; exact Hs.
Qed.

Lemma get_event_keeps_invariants (g : Game.t) (w : World) (state : GameState.t) :
  scores_in_range g → settled_in state g →
  scores_in_range (get_event (g, w)).2.1 ∧ settled_in state (get_event (g, w)).2.1.
Proof.
  intros (Ha & Hb & Hta & Htb & Hturn & Hboard) Hsettled.
  destruct (get_event_event_frame g w) as [Ea Eb Eta Etb Eturn _ _ _ _ _ _ _ _ _].
  pose proof (get_event_board g w) as Eboard.
  split.
  - unfold scores_in_range. rewrite Ea, Eb, Eta, Etb, Eturn.
    repeat apply conj; try assumption.
    destruct Eboard as [-> | [-> | ->]]; auto.
  - destruct state; cbn [settled_in] in *; rewrite ?Ea, ?Eb, ?Eta, ?Etb; exact Hsettled.
Qed.

(** One pass of the loop: poll, dispatch on the state, store the next
    state. *)
Lemma play_iteration_game (poll_interval : Q) (g : Game.t) (w : World) :
  let polled := get_event (g, w) in
  let result := handled (state g) polled.1 (clock polled.2.2 0) polled.2.1 in
  (play_iteration poll_interval (g, w)).1.1 = polled.1
  ∧ (play_iteration poll_interval (g, w)).2.1 = set_state result.1 result.2.
Proof.
  cbv zeta. destruct (get_event_event_frame g w) as [_ _ _ _ _ _ Estate _ _ _ _ _ _ _].
  rewrite <- Estate, <- !state_machine_handled.
  unfold play_iteration, mbind, State_bind, this, assign, modify, answer, mret, State_ret.
  destruct (get_event (g, w)) as [event [g1 w1]]. cbn [fst snd].
  destruct (state_machine (state g1) event (g1, w1)) as [next [g2 w2]]. cbn [fst snd].
  split; reflexivity.
Qed.

Lemma play_iteration_invariants (poll_interval : Q) (g : Game.t) (w : World) :
  scores_in_range g → settled_in (state g) g →
  let g' := (play_iteration poll_interval (g, w)).2.1 in
  scores_in_range g' ∧ settled_in (state g') g' ∧ may_follow (state g) (state g') = true.
Proof.
  intros Hrange Hsettled. cbv zeta.
  destruct (play_iteration_game poll_interval g w) as [_ ->].
  destruct (get_event_keeps_invariants g w (state g) Hrange Hsettled) as [Hrange' Hsettled'].
  set (polled := get_event (g, w)) in *.
  destruct (handled_keeps_invariants (state g) polled.1 (clock polled.2.2 0) polled.2.1
              Hrange' Hsettled') as [Hrange'' Hsettled''].
  destruct (get_event_event_frame g w) as [_ _ _ _ _ _ Estate _ _ _ _ _ _ _].
  split; [exact Hrange''|]. split; [exact Hsettled''|].
  change (state (set_state ?st ?h)) with st.
  pose proof (handlers_follow_diagram (state g) polled.1 polled.2) as Hfollow.
  destruct polled.2 as [g1 w1] eqn:Hpolled.
  rewrite state_machine_next in Hfollow. exact Hfollow.
Qed.

(** X21.  The loop keeps the scores in the ranges of the data model and in
    line with the state.  From a game whose game and turn scores are not
    negative, whose turn number is at least 1 and whose [last_board_played]
    is 0, 1 or 2, with no score in START and no turn score in TURN_OVER and
    BOARD_CLEAR, the same holds after any number of passes of the loop of
    [play], whatever the sensors, the buttons and the clock answer. *)
Theorem play_loop_invariants (fuel : nat) (poll_interval : Q) (g : Game.t) (w : World) :
  scores_in_range g → settled_in (state g) g →
  let g' := (play_loop fuel poll_interval (g, w)).2.1 in
  scores_in_range g' ∧ settled_in (state g') g'.
Proof.
  revert g w. induction fuel as [|fuel IH]; intros g w Hrange Hsettled; cbv zeta.
  { split; assumption. }
  destruct (play_iteration_invariants poll_interval g w Hrange Hsettled)
    as (Hrange' & Hsettled' & _).
  cbn [play_loop]. unfold mbind, State_bind, answer, mret, State_ret.
  destruct (play_iteration poll_interval (g, w)) as [pass [g1 w1]]. cbn [fst snd] in *.
  case_decide; [split; assumption|].
  specialize (IH g1 w1 Hrange' Hsettled'). cbv zeta in IH.
  destruct (play_loop fuel poll_interval (g1, w1)) as [rest [g2 w2]]. exact IH.
Qed.

Lemma play_loop_invariants_witness :
  scores_in_range (play_loop 3 0.25 (Sample.game [] [] [] [], Sample.world)).2.1.
Proof.
  assert (scores_in_range (Sample.game [] [] [] [])) as Hrange.
  { unfold scores_in_range. vm_compute. repeat apply conj; try discriminate.
    left. reflexivity. }
  assert (settled_in (state (Sample.game [] [] [] [])) (Sample.game [] [] [] []))
    as Hsettled.
  { vm_compute. repeat apply conj; reflexivity. }
  exact (proj1 (play_loop_invariants 3 0.25 (Sample.game [] [] [] []) Sample.world
                  Hrange Hsettled)).
Defined.

(** X22.  [play] handles the QUIT event like any other before it stops: when
    the first poll answers QUIT, [play] ends after one pass, having printed
    its greeting, logged the transition from START to START under QUIT and
    slept one polling interval; the game is the one the poll left, in state
    START. *)
Theorem play_quits_after_first_pass (fuel : nat) (g : Game.t) (w : World) :
  (get_event (set_state GameState.START g, w)).1 = GameEvent.QUIT →
  (play (S fuel) (g, w)).1
  = Some [ Printed ("Begin game" +:+ String (Ascii.ascii_of_nat 10) EmptyString);
           Logged "Event QUIT transitions From START To START";
           Slept (poll_interval_in_seconds g) ]
  ∧ (play (S fuel) (g, w)).2.1
    = set_state GameState.START (get_event (set_state GameState.START g, w)).2.1.
Proof.
  intros Hquit.
  pose proof (get_event_event_frame (set_state GameState.START g) w) as Hframe.
  destruct Hframe as [_ _ _ _ _ _ Estate _ _ _ _ _ _ _].
  unfold play, mbind, State_bind, assign, modify, this, answer, mret, State_ret.
  cbn [fst snd play_loop]. unfold play_iteration, mbind, State_bind, assign, modify,
    this, answer, mret, State_ret.
  destruct (get_event (set_state GameState.START g, w)) as [event [g1 w1]].
  cbn [fst snd] in *. subst event. cbn [state set_state] in Estate. rewrite Estate.
  split; reflexivity.
Qed.

Lemma play_quits_after_first_pass_witness :
  (get_event (set_state GameState.START (Sample.game [] [] [] []), Sample.quitting_world)).1
  = GameEvent.QUIT
  ∧ (play 1 (Sample.game [] [] [] [], Sample.quitting_world)).1
    = Some [ Printed ("Begin game" +:+ String (Ascii.ascii_of_nat 10) EmptyString);
             Logged "Event QUIT transitions From START To START";
             Slept (poll_interval_in_seconds (Sample.game [] [] [] [])) ].
Proof.
  assert ((get_event (set_state GameState.START (Sample.game [] [] [] []),
                      Sample.quitting_world)).1 = GameEvent.QUIT) as Hquit
    by (vm_compute; reflexivity).
  split; [exact Hquit|].
  exact (proj1 (play_quits_after_first_pass 0 (Sample.game [] [] [] [])
                  Sample.quitting_world Hquit)).
Defined.

(** ** The manual score board *)

Lemma four_scores (l : list Z) :
  length l = 4%nat → ∃ fixed_a turn_a fixed_b turn_b, l = [fixed_a; turn_a; fixed_b; turn_b].
Proof.
  destruct l as [|a [|b [|c [|d [|e l]]]]]; simpl; intros H; try discriminate.
  eauto.
Qed.

(** X23.  Once the score list has its four entries no method of the score
    board raises [IndexError], and each leaves a list of four entries:
    [new_game] always succeeds and zeroes them; changing a turn score and
    ending a turn succeed on four entries.  On a shorter list the total score
    cannot be computed. *)
Theorem score_board_never_fails (app : CornHoleApp.t) (team_letter : string) (delta : Z) :
  (∃ app', CornHoleApp.new_game app = Some app'
           ∧ CornHoleApp.scores app' = [0; 0; 0; 0] ∧ CornHoleApp.turn_number app' = 1)
  ∧ (length (CornHoleApp.scores app) = 4%nat →
     (∃ app', CornHoleApp.change_turn_score_and_redisplay team_letter delta app = Some app'
              ∧ length (CornHoleApp.scores app') = 4%nat)
     ∧ (∃ app', CornHoleApp.end_turn app = Some app'
                ∧ length (CornHoleApp.scores app') = 4%nat))
  ∧ ((length (CornHoleApp.scores app) < 4)%nat →
     CornHoleApp.get_total_score team_letter app = None
     ∧ CornHoleApp.end_turn app = None).
Proof.
  split; [|split].
  - eexists. split; [reflexivity|]. split; reflexivity.
  - intros (fa & ta & fb & tb & Hscores)%four_scores.
    destruct app as [scores turn va vb vta vtb message]. simpl in Hscores. subst scores.
    split.
    + unfold CornHoleApp.change_turn_score_and_redisplay, CornHoleApp.change_turn_score.
      case_decide; simpl; eexists; (split; [reflexivity|reflexivity]).
    + eexists. split; reflexivity.
  - intros Hshort. destruct app as [scores turn va vb vta vtb message]. simpl in Hshort.
    unfold CornHoleApp.end_turn, CornHoleApp.get_total_score. simpl.
    destruct scores as [|a [|b [|c [|d l]]]]; simpl in Hshort; try lia;
      case_decide; split; reflexivity.
Qed.

Lemma score_board_never_fails_witness :
  ∃ app', CornHoleApp.end_turn
            (CornHoleApp.Build [3; 5; 7; 2] 4 EmptyString EmptyString EmptyString
               EmptyString EmptyString) = Some app'
          ∧ length (CornHoleApp.scores app') = 4%nat.
Proof.
  apply (score_board_never_fails
           (CornHoleApp.Build [3; 5; 7; 2] 4 EmptyString EmptyString EmptyString
              EmptyString EmptyString) "A" 1).
  reflexivity.
Defined.

(** X24.  The score board and the sensor engine compute the same total
    score: on the scores [fixed A; turn A; fixed B; turn B]
    [get_total_score] answers what [Game.total_score] answers on a game with
    these game and turn scores, letter 'A' standing for team A and every
    other letter for team B. *)
Theorem score_board_total_is_game_total (app : CornHoleApp.t) (g : Game.t)
    (fixed_a turn_a fixed_b turn_b : Z) (team_letter : string) :
  CornHoleApp.scores app = [fixed_a; turn_a; fixed_b; turn_b] →
  CornHoleApp.get_total_score team_letter app
  = Some (total_score (with_scores fixed_a turn_a fixed_b turn_b g)
            (if decide (team_letter = "A") then Team.A else Team.B)).
Proof.
  intros Hscores. unfold CornHoleApp.get_total_score. rewrite Hscores.
  case_decide; reflexivity.
Qed.

Lemma score_board_total_is_game_total_witness :
  CornHoleApp.get_total_score "B"
    (CornHoleApp.Build [3; 5; 7; 9] 4 EmptyString EmptyString EmptyString
       EmptyString EmptyString)
  = Some (total_score (with_scores 3 5 7 9 (Sample.game [] [] [] [])) Team.B).
Proof.
  apply (score_board_total_is_game_total _ (Sample.game [] [] [] []) 3 5 7 9 "B").
  reflexivity.
Defined.

(** X25.  The score board ends a turn as the sensor engine does: on the
    scores [fixed A; turn A; fixed B; turn B] the new list is
    [game A; 0; game B; 0] with the game scores that [Game.end_turn] leaves on
    a game with these scores, the turn number is one more, and the total score
    of each team is what it was. *)
Theorem score_board_end_turn_is_game_end_turn (app : CornHoleApp.t) (g : Game.t)
    (w : World) (fixed_a turn_a fixed_b turn_b : Z) (team_letter : string) :
  CornHoleApp.scores app = [fixed_a; turn_a; fixed_b; turn_b] →
  let g' := (end_turn (with_scores fixed_a turn_a fixed_b turn_b g, w)).2.1 in
  ∃ app', CornHoleApp.end_turn app = Some app'
    ∧ CornHoleApp.scores app'
      = [team_a_game_score g'; team_a_turn_score g';
         team_b_game_score g'; team_b_turn_score g']
    ∧ CornHoleApp.turn_number app' = CornHoleApp.turn_number app + 1
    ∧ CornHoleApp.get_total_score team_letter app'
      = CornHoleApp.get_total_score team_letter app.
Proof.
  intros Hscores. cbv zeta.
  destruct app as [scores turn va vb vta vtb message]. simpl in Hscores. subst scores.
  eexists. split; [reflexivity|]. run. simpl.
  unfold CornHoleApp.get_total_score. simpl.
  destruct (decide (0 < turn_a - turn_b)); simpl;
    (split; [f_equal; [lia|f_equal; f_equal; lia]|]);
    (split; [reflexivity|]); case_decide; f_equal; lia.
Qed.

Lemma score_board_end_turn_is_game_end_turn_witness :
  ∃ app', CornHoleApp.end_turn
            (CornHoleApp.Build [3; 5; 7; 2] 4 EmptyString EmptyString EmptyString
               EmptyString EmptyString) = Some app'
          ∧ CornHoleApp.turn_number app' = 5.
Proof.
  destruct (score_board_end_turn_is_game_end_turn
              (CornHoleApp.Build [3; 5; 7; 2] 4 EmptyString EmptyString EmptyString
                 EmptyString EmptyString)
              (Sample.game [] [] [] []) Sample.world 3 5 7 2 "A" eq_refl)
    as (app' & Hend & _ & Hturn & _).
  exists app'. split; [exact Hend|exact Hturn].
Defined.

(** X26.  The plus and minus buttons change the turn score of the team of
    their letter only ('A' for team A, any other letter for team B), and
    never below 0: the new turn score is max(0, old + delta).  So a minus
    at 0 changes nothing, and a plus undone by a minus gives back the scores
    when the turn score was not negative. *)
Theorem score_board_change_turn_score (app : CornHoleApp.t)
    (fixed_a turn_a fixed_b turn_b delta : Z) :
  CornHoleApp.scores app = [fixed_a; turn_a; fixed_b; turn_b] →
  CornHoleApp.scores <$> CornHoleApp.change_turn_score "A" delta app
    = Some [fixed_a; Z.max 0 (turn_a + delta); fixed_b; turn_b]
  ∧ CornHoleApp.scores <$> CornHoleApp.change_turn_score "B" delta app
    = Some [fixed_a; turn_a; fixed_b; Z.max 0 (turn_b + delta)]
  ∧ (turn_a = 0 → CornHoleApp.change_turn_score "A" (-1) app = Some app)
  ∧ (0 ≤ turn_a →
     CornHoleApp.change_turn_score "A" 1 app ≫= CornHoleApp.change_turn_score "A" (-1)
     = Some app).
Proof.
  intros Hscores.
  destruct app as [scores turn va vb vta vtb message]. simpl in Hscores. subst scores.
  unfold CornHoleApp.change_turn_score. simpl. repeat apply conj; try reflexivity.
  - intros ->. reflexivity.
  - intros Hturn. unfold CornHoleApp.set_scores. simpl.
    replace (Z.max 0 (Z.max 0 (turn_a + 1) + -1)) with turn_a by lia. reflexivity.
Qed.

Lemma score_board_change_turn_score_witness :
  CornHoleApp.scores
    <$> CornHoleApp.change_turn_score "A" (-1)
          (CornHoleApp.Build [3; 0; 7; 2] 4 EmptyString EmptyString EmptyString
             EmptyString EmptyString)
  = Some [3; Z.max 0 (0 + -1); 7; 2].
Proof.
  apply (score_board_change_turn_score
           (CornHoleApp.Build [3; 0; 7; 2] 4 EmptyString EmptyString EmptyString
              EmptyString EmptyString) 3 0 7 2 (-1)).
  reflexivity.
Defined.

(** X27.  The score board announces a winner only to a team that has
    reached 21 in total and is strictly ahead: after [redisplay_scores] the
    message is 'Home wins!' exactly when A's total is at least 21 and above
    B's, and 'Visitors win!' exactly when B's total is at least 21 and above
    A's; at equal totals it shows the turn, however high the totals are. *)
Theorem score_board_message (app app' : CornHoleApp.t) (a_score b_score : Z) :
  CornHoleApp.get_total_score "A" app = Some a_score →
  CornHoleApp.get_total_score "B" app = Some b_score →
  CornHoleApp.redisplay_scores app = Some app' →
  (CornHoleApp.message_variable app' = "Home wins!" ↔ 21 ≤ a_score ∧ b_score < a_score)
  ∧ (CornHoleApp.message_variable app' = "Visitors win!"
     ↔ 21 ≤ b_score ∧ a_score < b_score)
  ∧ (a_score = b_score →
     CornHoleApp.message_variable app' = "Turn " +:+ pretty (CornHoleApp.turn_number app)).
Proof.
  intros Ha Hb. unfold CornHoleApp.redisplay_scores. rewrite Ha, Hb. simpl.
  destruct (CornHoleApp.scores app !! 1%nat) as [turn_a|]; [|discriminate]. simpl.
  destruct (CornHoleApp.scores app !! 3%nat) as [turn_b|]; [|discriminate]. simpl.
  intros [= <-]. cbn [CornHoleApp.message_variable].
  destruct (bool_decide_reflect (21 ≤ a_score)), (bool_decide_reflect (b_score < a_score)),
    (bool_decide_reflect (21 ≤ b_score)), (bool_decide_reflect (a_score < b_score));
    cbn [andb]; (split; [|split]);
    first [ intros ?; first [reflexivity | lia]
          | split;
            [ intros Hmessage; first [split; lia | simpl in Hmessage; discriminate Hmessage]
            | intros [? ?]; first [reflexivity | lia] ] ].
Qed.

Lemma score_board_message_witness :
  CornHoleApp.message_variable
    (CornHoleApp.Build [21; 0; 21; 0] 9 "21" "21" "   0" "   0" "Turn 9")
  = "Turn " +:+ pretty (CornHoleApp.turn_number
                          (CornHoleApp.Build [21; 0; 21; 0] 9 EmptyString EmptyString
                             EmptyString EmptyString EmptyString)).
Proof.
  apply (score_board_message
           (CornHoleApp.Build [21; 0; 21; 0] 9 EmptyString EmptyString EmptyString
              EmptyString EmptyString) _ 21 21); reflexivity.
Defined.

(** Every pass of the loop sleeps once, and logs its transition
    unless it is the idle one: from START to START under NO_CHANGE.  The
    message names the event, the state before the poll and the state after
    the handler. *)
Theorem play_iteration_logs (poll_interval : Q) (g : Game.t) (w : World) :
  let pass := play_iteration poll_interval (g, w) in
  pass.1.2
  = (if decide (state g = GameState.START ∧ state pass.2.1 = GameState.START
                ∧ pass.1.1 = GameEvent.NO_CHANGE)
     then []
     else [Logged ("Event " +:+ GameEvent_name pass.1.1 +:+ " transitions From "
                     +:+ GameState_name (state g) +:+ " To "
                     +:+ GameState_name (state pass.2.1))])
    ++ [Slept poll_interval].
Proof.
  cbv zeta. destruct (get_event_event_frame g w) as [_ _ _ _ _ _ Estate _ _ _ _ _ _ _].
  unfold play_iteration, mbind, State_bind, this, assign, modify, answer, mret, State_ret.
  destruct (get_event (g, w)) as [event [g1 w1]]. cbn [fst snd] in *.
  destruct (state_machine (state g1) event (g1, w1)) as [next [g2 w2]]. cbn [fst snd].
  change (state (set_state next g2)) with next. rewrite Estate.
  destruct (decide (state g ≠ GameState.START ∨ next ≠ GameState.START
                    ∨ event ≠ GameEvent.NO_CHANGE)) as [Hlog|Hidle].
  - rewrite decide_False; [reflexivity|]. intros (? & ? & ?). destruct Hlog as [?|[?|?]];
      contradiction.
  - rewrite decide_True; [reflexivity|].
    destruct (decide (state g = GameState.START)); [|exfalso; apply Hidle; auto].
    destruct (decide (next = GameState.START)); [|exfalso; apply Hidle; auto].
    destruct (decide (event = GameEvent.NO_CHANGE)); [|exfalso; apply Hidle; auto].
    auto.
Qed.

(** The polling interval of [play] is the smallest of the three
    configured intervals: it is one of them and none of them is below it. *)
Theorem poll_interval_is_least (g : Game.t) :
  let poll := poll_interval_in_seconds g in
  (poll = rfid_polling_interval_in_seconds g
   ∨ poll = button_polling_interval_in_seconds g
   ∨ poll = timeout_in_seconds g)
  ∧ (poll <= rfid_polling_interval_in_seconds g)%Q
  ∧ (poll <= button_polling_interval_in_seconds g)%Q
  ∧ (poll <= timeout_in_seconds g)%Q.
Proof.
  cbv zeta. unfold poll_interval_in_seconds.
  destruct (Qlt_bool (button_polling_interval_in_seconds g)
              (rfid_polling_interval_in_seconds g)) eqn:Hbutton;
    [apply Qlt_bool_iff in Hbutton|
     assert (¬ (button_polling_interval_in_seconds g
                < rfid_polling_interval_in_seconds g)%Q) as Hbutton'
       by (rewrite <- Qlt_bool_iff; congruence)];
    (destruct (Qlt_bool (timeout_in_seconds g) _) eqn:Htimeout;
     [apply Qlt_bool_iff in Htimeout|
      match type of Htimeout with
      | Qlt_bool ?x ?y = false =>
          assert (¬ (x < y)%Q) as Htimeout' by (rewrite <- Qlt_bool_iff; congruence)
      end]);
    (split; [auto|]); repeat apply conj; lra.
Qed.

(** ** Readings that list an rfid more than once *)

Lemma sensor_hits_count (g : Game.t) (team : Team.t) (sensor : Sensor.t) (rfid : string) :
  length (filter (λ hit, hit.1 = rfid) (sensor_hits g team sensor))
  = if is_team_tag g team rfid then occurrences rfid sensor else 0%nat.
Proof.
  unfold sensor_hits, occurrences.
  induction (Sensor.latest_reading sensor) as [|r reading IH].
  { destruct (is_team_tag g team rfid); reflexivity. }
  rewrite (filter_cons (λ r, r = rfid)).
  rewrite (filter_cons (λ r, is_team_tag g team r = true)).
  destruct (decide (r = rfid)) as [->|Hne].
  - destruct (is_team_tag g team rfid) eqn:Hteam.
    + rewrite decide_True by reflexivity. rewrite fmap_cons, filter_cons.
      rewrite decide_True by reflexivity. cbn [length]. rewrite IH. reflexivity.
    + rewrite decide_False by congruence. exact IH.
  - destruct (decide (is_team_tag g team r = true)); [|exact IH].
    rewrite fmap_cons, filter_cons. rewrite decide_False by exact Hne. exact IH.
Qed.

Lemma location_hits_count (g : Game.t) (team : Team.t) (location : Location.t)
    (rfid : string) :
  length (filter (λ hit, hit.1 = rfid) (location_hits g team location))
  = if is_team_tag g team rfid
    then sum_list (occurrences rfid <$> get_sensors_for_location g location)
    else 0%nat.
Proof.
  unfold location_hits.
  induction (get_sensors_for_location g location) as [|s ss IH].
  { destruct (is_team_tag g team rfid); reflexivity. }
  rewrite bind_cons, filter_app, length_app, IH, sensor_hits_count, fmap_cons.
  destruct (is_team_tag g team rfid); reflexivity.
Qed.

Lemma occurrence_weight_nonneg (rfid : string) (l : list Sensor.t) :
  (∀ s, s ∈ l → (0 <= Sensor.weight s)%Q) →
  (0 <= foldr (λ sensor total,
                 inject_Z (Z.of_nat (occurrences rfid sensor)) * Sensor.weight sensor
                 + total) 0 l)%Q.
Proof.
  induction l as [|s l IH]; intros Hweights; cbn [foldr]; [lra|].
  assert (0 <= Sensor.weight s)%Q as Hs by (apply Hweights; left).
  assert (0 <= inject_Z (Z.of_nat (occurrences rfid s)))%Q as Hocc.
  { change 0%Q with (inject_Z 0). rewrite <- Zle_Qle. lia. }
  specialize (IH ltac:(intros; apply Hweights; right; assumption)).
  assert (0 <= inject_Z (Z.of_nat (occurrences rfid s)) * Sensor.weight s)%Q
    by (apply Qmult_le_0_compat; assumption).
  lra.
Qed.

(** With non-negative weights, the weight counted per occurrence at a
    location is at least what one of its sensors contributes. *)
Lemma occurrence_weight_sensor (g : Game.t) (location : Location.t) (rfid : string)
    (sensor : Sensor.t) :
  (∀ s, s ∈ get_sensors_for_location g location → (0 <= Sensor.weight s)%Q) →
  sensor ∈ get_sensors_for_location g location →
  (inject_Z (Z.of_nat (occurrences rfid sensor)) * Sensor.weight sensor
   <= occurrence_weight g location rfid)%Q.
Proof.
  unfold occurrence_weight.
  induction (get_sensors_for_location g location) as [|s ss IH];
    intros Hweights Hin; [inversion Hin|].
  cbn [foldr].
  pose proof (occurrence_weight_nonneg rfid ss
                ltac:(intros; apply Hweights; right; assumption)) as Hrest.
  apply elem_of_cons in Hin as [->|Hin]; [lra|].
  specialize (IH ltac:(intros; apply Hweights; right; assumption) Hin).
  assert (0 <= Sensor.weight s)%Q as Hs by (apply Hweights; left).
  assert (0 <= inject_Z (Z.of_nat (occurrences rfid s)))%Q as Hocc.
  { change 0%Q with (inject_Z 0). rewrite <- Zle_Qle. lia. }
  assert (0 <= inject_Z (Z.of_nat (occurrences rfid s)) * Sensor.weight s)%Q
    by (apply Qmult_le_0_compat; assumption).
  lra.
Qed.

Lemma occurrences_read (rfid : string) (sensor : Sensor.t) :
  (1 ≤ occurrences rfid sensor)%nat → rfid ∈ Sensor.latest_reading sensor.
Proof.
  unfold occurrences. intros Hcount.
  destruct (filter _ (Sensor.latest_reading sensor)) as [|r l] eqn:Hfilter;
    [simpl in Hcount; lia|].
  assert (r ∈ filter (λ r, r = rfid) (Sensor.latest_reading sensor)) as Hin
    by (rewrite Hfilter; left).
  apply list_elem_of_filter in Hin as [-> Hin]. exact Hin.
Qed.

Lemma best_points_reader (g : Game.t) (location : Location.t) (rfid : string)
    (sensor : Sensor.t) :
  sensor ∈ readers g location rfid →
  Sensor.points_to_award sensor ≤ best_points g location rfid.
Proof.
  unfold best_points. intros Hreader.
  induction (readers g location rfid) as [|s l IH]; [inversion Hreader|].
  cbn [foldr]. apply elem_of_cons in Hreader as [->|Hreader]; [lia|].
  specialize (IH Hreader). lia.
Qed.

(** C10.  The body of the inner loop of [tally_location], which adds the
    sensor's weight to the tag's hits, runs once for every occurrence of a
    team's rfid in a reading, not once per sensor: the loops are the fold of
    that body over the hits of the location, and the hits of an rfid number
    the occurrences of the rfid in the readings of the sensors there.  So a
    sensor whose reading lists a bag of the team twice verifies it as soon as
    twice its weight reaches the threshold, even when its weight alone is below
    the threshold (the weights at the location being non-negative), and the
    bag then scores at least that sensor's points.  A sensor of weight 1/2
    that lists the rfid twice, against threshold 1, is such an input: it
    verifies the tag alone. *)
Theorem repeated_read_counts_weight_per_occurrence :
  (∀ g team location rfid,
     tally_loops g team location
     = foldl (apply_hit g) empty_tally (location_hits g team location)
     ∧ length (filter (λ hit, hit.1 = rfid) (location_hits g team location))
       = if is_team_tag g team rfid
         then sum_list (occurrences rfid <$> get_sensors_for_location g location)
         else 0%nat)
  ∧ (∀ g team location sensor rfid,
       (∀ s, s ∈ get_sensors_for_location g location → (0 <= Sensor.weight s)%Q) →
       sensor ∈ get_sensors_for_location g location →
       is_team_tag g team rfid = true →
       (2 ≤ occurrences rfid sensor)%nat →
       (minimum_sensor_weight g <= Sensor.weight sensor + Sensor.weight sensor)%Q →
       rfid ∈ verified_tags (tally_loops g team location)
       ∧ Sensor.points_to_award sensor ≤ tally_location g team location)
  ∧ (∃ g team location rfid sensor,
       get_sensors_for_location g location = [sensor]
       ∧ occurrences rfid sensor = 2%nat
       ∧ Sensor.weight sensor = 0.5%Q
       ∧ minimum_sensor_weight g = 1%Q
       ∧ (Sensor.weight sensor < minimum_sensor_weight g)%Q
       ∧ rfid ∈ verified_tags (tally_loops g team location)
       ∧ tally_location g team location = Sensor.points_to_award sensor).
Proof.
  split; [|split].
  - intros g team location rfid. split.
    + apply tally_loops_hits.
    + apply location_hits_count.
  - intros g team location sensor rfid Hweights Hsensor Hteam Htwice Hheavy.
    assert (rfid ∈ Sensor.latest_reading sensor) as Hread
      by (apply occurrences_read; lia).
    assert (rfid ∈ verified_tags (tally_loops g team location)) as Hverified.
    { rewrite verified_tags_occurrences by exact Hweights.
      unfold credited. apply elem_of_list_to_set, list_elem_of_filter. split.
      - rewrite Hteam. cbn [andb]. apply Qle_bool_iff.
        pose proof (occurrence_weight_sensor g location rfid sensor Hweights Hsensor)
          as Hcounted.
        assert (0 <= Sensor.weight sensor)%Q as Hweight by (apply Hweights, Hsensor).
        assert (2 <= inject_Z (Z.of_nat (occurrences rfid sensor)))%Q as Hocc.
        { change 2%Q with (inject_Z 2). rewrite <- Zle_Qle. lia. }
        assert (2 * Sensor.weight sensor
                <= inject_Z (Z.of_nat (occurrences rfid sensor)) * Sensor.weight sensor)%Q
          by (apply Qmult_le_compat_r; assumption).
        lra.
      - apply list_elem_of_bind. exists sensor. split; assumption. }
    split; [exact Hverified|].
    rewrite tally_location_verified.
    pose proof (sum_points_member (best_points g location) _ rfid
                  (best_points_nonneg g location) Hverified) as Hsum.
    assert (sensor ∈ readers g location rfid) as Hreader
      by (apply list_elem_of_filter; split; assumption).
    pose proof (best_points_reader g location rfid sensor Hreader). lia.
  - exists Sample.game_repeated_read, Team.A, Location.BOARD_1, "A1",
      (Sensor.Build "TOP_1" 0.5 Location.BOARD_1 ["A1"; "A1"] 1).
    repeat split; vm_compute; reflexivity.
Qed.

Lemma repeated_read_counts_weight_per_occurrence_witness :
  "A1" ∈ verified_tags
           (tally_loops
              (Game.set_sensors
                 [Sensor.Build "HOLE_1" 0.6 Location.HOLE_1 ["A1"; "B1"; "A1"; "A1"] 3]
                 (Sample.game [] [] [] []))
              Team.A Location.HOLE_1)
  ∧ 3 ≤ tally_location
          (Game.set_sensors
             [Sensor.Build "HOLE_1" 0.6 Location.HOLE_1 ["A1"; "B1"; "A1"; "A1"] 3]
             (Sample.game [] [] [] []))
          Team.A Location.HOLE_1.
Proof.
  pose (sensor := Sensor.Build "HOLE_1" 0.6 Location.HOLE_1 ["A1"; "B1"; "A1"; "A1"] 3).
  pose (g := Game.set_sensors [sensor] (Sample.game [] [] [] [])).
  assert (get_sensors_for_location g Location.HOLE_1 = [sensor]) as Hsensors
    by (vm_compute; reflexivity).
  assert (∀ s, s ∈ get_sensors_for_location g Location.HOLE_1 → (0 <= Sensor.weight s)%Q)
    as Hweights.
  { intros s Hs. rewrite Hsensors in Hs. apply list_elem_of_singleton in Hs as ->.
    vm_compute. discriminate. }
  assert (sensor ∈ get_sensors_for_location g Location.HOLE_1) as Hsensor
    by (rewrite Hsensors; apply list_elem_of_singleton; reflexivity).
  assert (is_team_tag g Team.A "A1" = true) as Hteam by (vm_compute; reflexivity).
  assert (2 ≤ occurrences "A1" sensor)%nat as Htwice by (vm_compute; lia).
  assert (minimum_sensor_weight g <= Sensor.weight sensor + Sensor.weight sensor)%Q
    as Hheavy by (vm_compute; discriminate).
  exact (proj1 (proj2 repeated_read_counts_weight_per_occurrence)
           g Team.A Location.HOLE_1 sensor "A1" Hweights Hsensor Hteam Htwice Hheavy).
Defined.
